(** * sql-unit: the annotation-to-SQL pipeline, embedded and verified

    A shallow embedding of [sql_unit/annotations.py], [sql_unit/types.py],
    [sql_unit/utils.py] and [sql_unit/model.py].

    Python strings are lists of characters; a character is a code point
    below 256 (Rocq's [ascii]).  Python dictionaries are association lists
    in insertion order.  Exceptions are an explicit [Raise] result.  The
    YAML loader and the Jinja renderer are collaborators of the program and
    enter as type classes. *)

From Stdlib Require String DecimalString.
From Stdlib Require Import List Ascii Bool Arith Lia ZArith.
Import ListNotations.

Set Implicit Arguments.

(* ================================================================== *)
(** * Python strings *)
(* ================================================================== *)

Definition str := list ascii.

Inductive str_literal := LitNil | LitCons (a : ascii) (l : str_literal).

Fixpoint literal_of_bytes (l : list Byte.byte) : str_literal :=
  match l with
  | [] => LitNil
  | b :: r => LitCons (ascii_of_byte b) (literal_of_bytes r)
  end.

Fixpoint bytes_of_literal (l : str_literal) : list Byte.byte :=
  match l with
  | LitNil => []
  | LitCons a r => byte_of_ascii a :: bytes_of_literal r
  end.

Declare Scope str_scope.
Delimit Scope str_scope with str.
#[warnings="-via-type-mismatch"]
String Notation list literal_of_bytes bytes_of_literal
  (via str_literal mapping [[nil] => LitNil, [cons] => LitCons]) : str_scope.
Open Scope str_scope.

(** The characters that cannot be typed inside a literal. *)
Definition LF : ascii := ascii_of_nat 10.
Definition CR : ascii := ascii_of_nat 13.
Definition DQ : ascii := ascii_of_nat 34.
Definition NL : str := [LF].
Definition QUOTE : str := [DQ].

Definition str_eqb (a b : str) : bool :=
  if list_eq_dec ascii_dec a b then true else false.

(** [str.isspace] on one character, for code points below 256. *)
Definition isspace (c : ascii) : bool :=
  let n := nat_of_ascii c in
  ((9 <=? n) && (n <=? 13)) || ((28 <=? n) && (n <=? 32))
  || (n =? 133) || (n =? 160).

(** The line boundaries of [str.splitlines], for code points below 256. *)
Definition is_linebreak (c : ascii) : bool :=
  let n := nat_of_ascii c in
  ((10 <=? n) && (n <=? 13)) || ((28 <=? n) && (n <=? 30)) || (n =? 133).

Fixpoint dropwhile (p : ascii -> bool) (s : str) : str :=
  match s with
  | [] => []
  | c :: r => if p c then dropwhile p r else s
  end.

(** [s.lstrip()] *)
Definition lstrip (s : str) : str := dropwhile isspace s.

(** [s.rstrip()]: a character stays when it is no whitespace or when
    something stays after it. *)
Fixpoint rstrip (s : str) : str :=
  match s with
  | [] => []
  | c :: r =>
    match rstrip r with
    | [] => if isspace c then [] else [c]
    | r' => c :: r'
    end
  end.

(** [s.strip()] *)
Definition strip (s : str) : str := lstrip (rstrip s).

(** [sep.join(parts)] *)
Fixpoint join (sep : str) (parts : list str) : str :=
  match parts with
  | [] => []
  | [p] => p
  | p :: rest => p ++ sep ++ join sep rest
  end.

(** [s.splitlines()]: a carriage return followed by a line feed is one
    boundary, and a final boundary opens no further line. *)
Fixpoint splitlines (s : str) : list str :=
  match s with
  | [] => []
  | c :: r =>
    if is_linebreak c then
      [] :: (if Ascii.eqb c CR then
               match r with
               | c2 :: r2 => if Ascii.eqb c2 LF then splitlines r2 else splitlines r
               | [] => []
               end
             else splitlines r)
    else
      match splitlines r with
      | [] => [[c]]
      | l :: ls => (c :: l) :: ls
      end
  end.

(** [s.startswith(p)] *)
Fixpoint starts_with (p s : str) : bool :=
  match p, s with
  | [], _ => true
  | a :: p', b :: s' => Ascii.eqb a b && starts_with p' s'
  | _ :: _, [] => false
  end.

(** [s.find(sub)], with [None] for -1. *)
Fixpoint find (sub s : str) : option nat :=
  if starts_with sub s then Some 0
  else match s with
       | [] => None
       | _ :: r => option_map S (find sub r)
       end.

(** [s.find(sub, start)] *)
Definition find_from (sub s : str) (start : nat) : option nat :=
  option_map (Nat.add start) (find sub (skipn start s)).

(** [sub in s] *)
Definition contains (sub s : str) : bool :=
  match find sub s with Some _ => true | None => false end.

(** [s[a:b]] for [0 <= a] and [0 <= b]. *)
Definition slice (s : str) (a b : nat) : str := firstn (b - a) (skipn a s).

(** [s.replace(old, new)] for a non-empty [old]: occurrences are taken
    from left to right and do not overlap; [skip] counts the characters of
    the occurrence being replaced that are still to be dropped. *)
Fixpoint replace_from (old new : str) (skip : nat) (s : str) : str :=
  match s with
  | [] => []
  | c :: r =>
    match skip with
    | S k => replace_from old new k r
    | O => if starts_with old s
           then new ++ replace_from old new (length old - 1) r
           else c :: replace_from old new 0 r
    end
  end.

Definition replace (old new s : str) : str := replace_from old new 0 s.

(** [s.split(sep)] for a one-character separator. *)
Fixpoint split_char (sep : ascii) (s : str) : list str :=
  match s with
  | [] => [[]]
  | c :: r =>
    if Ascii.eqb c sep then [] :: split_char sep r
    else match split_char sep r with
         | [] => [[c]]
         | l :: ls => (c :: l) :: ls
         end
  end.

(** [s.split(sub, 1)[-1]] when [sub in s]: the text after the first
    occurrence of [sub]. *)
Fixpoint after_first (sub s : str) : option str :=
  if starts_with sub s then Some (skipn (length sub) s)
  else match s with
       | [] => None
       | _ :: r => after_first sub r
       end.

(** [l[1:-1]] *)
Definition inner {A} (l : list A) : list A := removelast (tl l).

(** [str(n)] for an integer. *)
Definition str_of_Z (z : Z) : str :=
  String.list_ascii_of_string
    (DecimalString.NilEmpty.string_of_int (Z.to_int z)).

(** [min(xs)] for a non-empty sequence of naturals. *)
Definition list_min (d : nat) (l : list nat) : nat := fold_right Nat.min d l.

(* ================================================================== *)
(** * annotations.py: the comment extractor *)
(* ================================================================== *)

(** The number of leading whitespace characters,
    [len(line) - len(line.lstrip())]. *)
Definition indent (line : str) : nat := length line - length (lstrip line).

(** [if line.strip()] *)
Definition nonblank (line : str) : bool :=
  match strip line with [] => false | _ => true end.

(** Lines 22 to 31 of [get_comments]: the indentation normalisation
    applied to the collected comment text. *)
Definition normalize (comment_doc : str) : str :=
  let lines := splitlines comment_doc in
  let nonempty_lines := filter nonblank lines in
  match nonempty_lines with
  | [] => []
  | first :: others =>
    let min_indent := list_min (indent first) (map indent others) in
    let normalized := join NL (map (skipn min_indent) nonempty_lines) in
    join NL (map rstrip (splitlines normalized))
  end.

(** The scanning loop of [get_comments].  Every round drops at least the
    two characters of a comment opener from [template_str], so its length
    bounds the number of rounds. *)
Fixpoint scan_comments (fuel : nat) (template_str comment_doc : str) : str :=
  match fuel with
  | O => comment_doc
  | S fuel' =>
    match find "/*" template_str with
    | None => comment_doc
    | Some i =>
      let start := i + 2 in
      match find_from "*/" template_str start with
      | None => comment_doc
      | Some end_ =>
        let comment := slice template_str start end_ in
        let template_str' := skipn (end_ + 2) template_str in
        if contains "# sql-unit" comment
           && negb (contains "# sql-unit.disabled" comment)
        then scan_comments fuel' template_str'
               (comment_doc ++ replace "# sql-unit" [] comment ++ NL)
        else scan_comments fuel' template_str' comment_doc
      end
    end
  end.

Definition get_comments (template_str : str) : str :=
  let comment_doc := scan_comments (length template_str) template_str [] in
  match comment_doc with
  | [] => []
  | _ => normalize comment_doc
  end.


(* ================================================================== *)
(** * Exceptions, values and dictionaries *)
(* ================================================================== *)

(** The exceptions the program meets.  pydantic's [ValidationError] is a
    subclass of [ValueError] and is caught as one, so it is modelled as
    [ValueError]. *)
Inductive exn :=
| ValueError | AssertionError | IndexError | TypeError | AttributeError
| KeyError | YAMLError | TemplateError.

Definition exn_eqb (a b : exn) : bool :=
  match a, b with
  | ValueError, ValueError | AssertionError, AssertionError
  | IndexError, IndexError | TypeError, TypeError
  | AttributeError, AttributeError | KeyError, KeyError
  | YAMLError, YAMLError
  | TemplateError, TemplateError => true
  | _, _ => false
  end.

Inductive result (A : Type) : Type :=
| Ok (a : A)
| Raise (e : exn).
Arguments Ok {A} a.
Arguments Raise {A} e.

Definition bind {A B} (r : result A) (k : A -> result B) : result B :=
  match r with
  | Ok a => k a
  | Raise e => Raise e
  end.

Notation "x <- e ;; k" := (bind e (fun x => k))
  (at level 61, e at next level, right associativity).

(** Running [f] over a sequence from left to right; the first exception
    ends the run. *)
Fixpoint mapM {A B} (f : A -> result B) (l : list A) : result (list B) :=
  match l with
  | [] => Ok []
  | x :: r => y <- f x ;; ys <- mapM f r ;; Ok (y :: ys)
  end.

(** Native Python values as the YAML loader produces them.  A float is
    identified by the text [str()] prints for it; the keys of a mapping
    are strings; [VOther] is any object outside the listed types (a date,
    for one). *)
#[warnings="-register-all"]
Inductive value :=
| VNone
| VBool (b : bool)
| VInt (z : Z)
| VFloat (repr : str)
| VStr (s : str)
| VList (items : list value)
| VDict (items : list (str * value))
| VOther.

(** [dict[str, A]], in insertion order. *)
Definition dict (A : Type) := list (str * A).

Fixpoint dict_get {A} (k : str) (d : dict A) : option A :=
  match d with
  | [] => None
  | (k', v) :: r => if str_eqb k k' then Some v else dict_get k r
  end.

(** [k in d] *)
Definition dict_has {A} (k : str) (d : dict A) : bool :=
  match dict_get k d with Some _ => true | None => false end.

(** [d[k] = v]: an existing key keeps its place. *)
Fixpoint dict_set {A} (k : str) (v : A) (d : dict A) : dict A :=
  match d with
  | [] => [(k, v)]
  | (k', v') :: r =>
    if str_eqb k k' then (k', v) :: r else (k', v') :: dict_set k v r
  end.

Definition dict_keys {A} (d : dict A) : list str := map fst d.
Definition dict_values {A} (d : dict A) : list A := map snd d.

(** [d |= e] *)
Definition dict_update {A} (d e : dict A) : dict A :=
  fold_left (fun acc kv => dict_set (fst kv) (snd kv) acc) e d.

(** [{k: v for k, v in pairs}] *)
Definition dict_of_pairs {A} (pairs : list (str * A)) : dict A :=
  dict_update [] pairs.

Definition mem (k : str) (l : list str) : bool := existsb (str_eqb k) l.

(** [set(a) == set(b)] *)
Definition set_eqb (a b : list str) : bool :=
  forallb (fun k => mem k b) a && forallb (fun k => mem k a) b.

(** [value.items()] on an untyped value. *)
Definition py_items (v : value) : result (list (str * value)) :=
  match v with
  | VDict items => Ok items
  | _ => Raise AttributeError
  end.

(** [key in value] for a string [key] and an untyped [value]. *)
Definition py_in (key : str) (v : value) : result bool :=
  match v with
  | VDict items => Ok (dict_has key items)
  | VStr s => Ok (contains key s)
  | VList items =>
    Ok (existsb (fun x => match x with VStr s => str_eqb key s | _ => false end)
          items)
  | _ => Raise TypeError
  end.

(** [value[key]] for a string [key]. *)
Definition py_getitem (v : value) (key : str) : result value :=
  match v with
  | VDict items =>
    match dict_get key items with Some x => Ok x | None => Raise KeyError end
  | _ => Raise TypeError
  end.

(** The YAML loader: [yaml.safe_load], with [None] for [yaml.YAMLError]. *)
Class Yaml := safe_load : str -> option value.

(* ================================================================== *)
(** * Regular expressions: the fragment of [re] the patterns use *)
(* ================================================================== *)

Module Re.

Inductive regex :=
| Eps
| Chr (p : ascii -> bool)                (* one character of a class *)
| Cat (r1 r2 : regex)
| Star (greedy : bool) (p : ascii -> bool)   (* [p*] and [p*?] *)
| Plus (greedy : bool) (p : ascii -> bool)   (* [p+] and [p+?] *)
| Group (name : str) (r : regex)
| Eol.                                   (* [$] without MULTILINE *)

Section Matcher.
Variable R : Type.
Definition cont := str -> dict str -> option R.

(** Backtracking over a repeated class: the greedy form tries one more
    character before it hands over, the lazy form hands over first. *)
Fixpoint star_match (greedy : bool) (p : ascii -> bool)
         (s : str) (g : dict str) (k : cont) : option R :=
  match s with
  | c :: r =>
    if p c then
      if greedy then
        match star_match greedy p r g k with
        | Some x => Some x
        | None => k s g
        end
      else
        match k s g with
        | Some x => Some x
        | None => star_match greedy p r g k
        end
    else k s g
  | [] => k s g
  end.

Fixpoint rmatch (re : regex) (s : str) (g : dict str) (k : cont)
  : option R :=
  match re with
  | Eps => k s g
  | Chr p =>
    match s with
    | c :: r => if p c then k r g else None
    | [] => None
    end
  | Cat r1 r2 => rmatch r1 s g (fun s' g' => rmatch r2 s' g' k)
  | Star greedy p => star_match greedy p s g k
  | Plus greedy p =>
    match s with
    | c :: r => if p c then star_match greedy p r g k else None
    | [] => None
    end
  | Group name r =>
    rmatch r s g
      (fun s' g' => k s' (dict_set name (firstn (length s - length s') s) g'))
  | Eol =>
    match s with
    | [] => k s g
    | [c] => if Ascii.eqb c LF then k s g else None
    | _ => None
    end
  end.
End Matcher.

(** [pattern.match(s)]: the groups and the text after the match. *)
Definition match_ (re : regex) (s : str) : option (dict str * str) :=
  rmatch re s [] (fun rest g => Some (g, rest)).

(** [m.group(name)] *)
Definition group (name : str) (m : dict str * str) : str :=
  match dict_get name (fst m) with Some s => s | None => [] end.

Fixpoint seq (rs : list regex) : regex :=
  match rs with
  | [] => Eps
  | r :: rest => Cat r (seq rest)
  end.

Definition lit (s : str) : regex := seq (map (fun a => Chr (Ascii.eqb a)) s).

Definition lower (c : ascii) : ascii :=
  let n := nat_of_ascii c in
  if (65 <=? n) && (n <=? 90) then ascii_of_nat (n + 32) else c.

(** A literal under IGNORECASE (the pattern's letters are lower case). *)
Definition lit_ci (s : str) : regex :=
  seq (map (fun a => Chr (fun c => Ascii.eqb a (lower c))) s).

Definition any_char (c : ascii) : bool := true.            (* [.] with DOTALL *)
Definition dot (c : ascii) : bool := negb (Ascii.eqb c LF). (* [.] *)

(** [[A-Za-z0-9_.-]] *)
Definition ident_char (c : ascii) : bool :=
  let n := nat_of_ascii c in
  ((65 <=? n) && (n <=? 90)) || ((97 <=? n) && (n <=? 122))
  || ((48 <=? n) && (n <=? 57)) || (n =? 95) || (n =? 46) || (n =? 45).

End Re.

(** [^sql\-unit\.(?P<type>.+?) \"(?P<identifier>[A-Za-z0-9_.-]+)\"$] *)
Definition SQLUNIT_IDENTIFIER_PATTERN : Re.regex :=
  Re.seq [ Re.lit "sql-unit.";
           Re.Group "type" (Re.Plus false Re.dot);
           Re.lit " "; Re.lit QUOTE;
           Re.Group "identifier" (Re.Plus true Re.ident_char);
           Re.lit QUOTE; Re.Eol ].

(** [^given \"(?P<name>[A-Za-z0-9_.-]+)\"$] *)
Definition SQLUNIT_GIVEN_PATTERN : Re.regex :=
  Re.seq [ Re.lit "given "; Re.lit QUOTE;
           Re.Group "name" (Re.Plus true Re.ident_char);
           Re.lit QUOTE; Re.Eol ].

(** [^\s*(with)\s+.+?\s+as\s+\(.+?\)] with IGNORECASE and DOTALL. *)
Definition leading_with_pattern : Re.regex :=
  Re.seq [ Re.Star true isspace;
           Re.Group "1" (Re.lit_ci "with");
           Re.Plus true isspace;
           Re.Plus false Re.any_char;
           Re.Plus true isspace;
           Re.lit_ci "as";
           Re.Plus true isspace;
           Re.lit "(";
           Re.Plus false Re.any_char;
           Re.lit ")" ].

(** [pattern.sub(empty, s)] with the empty text [empty], for a pattern
    that can match at the start of the text only: the match, if any, is
    removed. *)
Definition re_sub_empty (re : Re.regex) (s : str) : str :=
  match Re.match_ re s with
  | Some (_, rest) => rest
  | None => s
  end.

(* ================================================================== *)
(** * utils.py *)
(* ================================================================== *)

(** Convert a native Python object to its SQL representation.  The
    branches are tried in the order of the source: a [bool] is an [int]
    for [isinstance], so it is printed by [str(obj)] in the second
    branch. *)
Fixpoint native_to_sql (obj : value) : result str :=
  match obj with
  | VStr s => Ok ("'" ++ s ++ "'")
  | VInt z => Ok (str_of_Z z)
  | VBool b => Ok (if b then "True" else "False")
  | VFloat repr => Ok repr
  | VNone => Ok "null"
  | VList items =>
    parts <- (fix each (l : list value) : result (list str) :=
                match l with
                | [] => Ok []
                | x :: r => y <- native_to_sql x ;; ys <- each r ;; Ok (y :: ys)
                end) items ;;
    Ok ("[" ++ join ", " parts ++ "]")
  | VDict _ | VOther => Raise TypeError
  end.

(** [type(val)] *)
Inductive pytype :=
| type_str | type_int | type_float | type_list | type_bool | type_None
| type_other.

Definition type_of (v : value) : pytype :=
  match v with
  | VStr _ => type_str
  | VInt _ => type_int
  | VFloat _ => type_float
  | VList _ => type_list
  | VBool _ => type_bool
  | VNone => type_None
  | VDict _ | VOther => type_other
  end.

(** Convert a native Python type to its SQL type definition. *)
Definition native_to_sql_typedef (typ : pytype) : result str :=
  match typ with
  | type_str => Ok "string"
  | type_int => Ok "int"
  | type_float => Ok "float"
  | type_list => Ok "array"
  | type_bool => Ok "boolean"
  | type_None => Ok "null"
  | type_other => Raise TypeError
  end.

(* ================================================================== *)
(** * types.py *)
(* ================================================================== *)

Inductive SQLUnitMockType :=
| table | mapping | sequence | int_ | float_ | str_ | bool_.

Definition SQLUnitMockType_eqb (a b : SQLUnitMockType) : bool :=
  match a, b with
  | table, table | mapping, mapping | sequence, sequence | int_, int_
  | float_, float_ | str_, str_ | bool_, bool_ => true
  | _, _ => false
  end.

(** [SQLUnitMockType(s)]: the member whose value is [s]. *)
Definition SQLUnitMockType_of_str (s : str) : option SQLUnitMockType :=
  if str_eqb s "table" then Some table
  else if str_eqb s "mapping" then Some mapping
  else if str_eqb s "sequence" then Some sequence
  else if str_eqb s "int" then Some int_
  else if str_eqb s "float" then Some float_
  else if str_eqb s "str" then Some str_
  else if str_eqb s "bool" then Some bool_
  else None.

(** The default-value text of a type, for a mock called [name]. *)
Definition default_factory (self : SQLUnitMockType) (name : str) : str :=
  match self with
  | table => QUOTE ++ name ++ "_table" ++ QUOTE
  | mapping => "{}"
  | sequence => "[]"
  | int_ => "0"
  | float_ => "0.0"
  | str_ => QUOTE ++ name ++ QUOTE
  | bool_ => "false"
  end.

(* ================================================================== *)
(** * [ast.literal_eval], on the literals the program hands to it *)
(* ================================================================== *)

Definition is_digit (c : ascii) : bool :=
  let n := nat_of_ascii c in (48 <=? n) && (n <=? 57).

Definition is_name_start (c : ascii) : bool :=
  let n := nat_of_ascii c in
  ((65 <=? n) && (n <=? 90)) || ((97 <=? n) && (n <=? 122)) || (n =? 95).

Definition is_name_char (c : ascii) : bool := is_name_start c || is_digit c.

(** A Python name: a letter or underscore, then letters, digits and
    underscores. *)
Definition is_name (s : str) : bool :=
  match s with
  | c :: r => is_name_start c && forallb is_name_char r
  | [] => false
  end.

(** The reserved words, which are no names. *)
Definition keywords : list str :=
  [ "False"; "None"; "True"; "and"; "as"; "assert"; "async"; "await";
    "break"; "class"; "continue"; "def"; "del"; "elif"; "else"; "except";
    "finally"; "for"; "from"; "global"; "if"; "import"; "in"; "is";
    "lambda"; "nonlocal"; "not"; "or"; "pass"; "raise"; "return"; "try";
    "while"; "with"; "yield" ].

(** The body of a quoted literal that stands for itself: no quote of the
    enclosing kind, no backslash, no line break. *)
Definition plain_body (q : ascii) (body : str) : bool :=
  forallb (fun c => negb (Ascii.eqb c q) && negb (Ascii.eqb c "\")
                    && negb (Ascii.eqb c LF) && negb (Ascii.eqb c CR)) body.

Fixpoint Z_of_digits (acc : Z) (s : str) : Z :=
  match s with
  | [] => acc
  | c :: r => Z_of_digits (10 * acc + Z.of_nat (nat_of_ascii c - 48)) r
  end.

(** [ast.literal_eval(s)] for a string [s].  The modelled literals are:
    [True], [False], [None]; any other bare name that is no reserved word,
    which Python rejects with [ValueError] (malformed node); the empty displays [{}] and [[]]; a
    decimal integer without a leading zero; the float literal [0.0]; and a
    quoted string with a plain body.  The outer [None] stands for text
    outside these forms, about which the model says nothing. *)
Definition literal_eval_str (s : str) : option (result value) :=
  if str_eqb s "True" then Some (Ok (VBool true))
  else if str_eqb s "False" then Some (Ok (VBool false))
  else if str_eqb s "None" then Some (Ok VNone)
  else if is_name s && negb (mem s keywords) then Some (Raise ValueError)
  else if str_eqb s "{}" then Some (Ok (VDict []))
  else if str_eqb s "[]" then Some (Ok (VList []))
  else if str_eqb s "0.0" then Some (Ok (VFloat "0.0"))
  else if str_eqb s "0" then Some (Ok (VInt 0))
  else match s with
       | c :: r =>
         if is_digit c && negb (Ascii.eqb c "0") && forallb is_digit r
         then Some (Ok (VInt (Z_of_digits 0 s)))
         else if (Ascii.eqb c DQ || Ascii.eqb c "'")
                 && (2 <=? length s)
                 && Ascii.eqb (last r c) c
                 && plain_body c (removelast r)
         then Some (Ok (VStr (removelast r)))
         else None
       | [] => None
       end.

(** [ast.literal_eval(x)] for an untyped [x]: a string is parsed; [None],
    a number or a container is no syntax node and is rejected with
    [ValueError]. *)
Definition literal_eval (x : value) : option (result value) :=
  match x with
  | VStr s => literal_eval_str s
  | _ => Some (Raise ValueError)
  end.

(* ================================================================== *)
(** * annotations.py: the annotation document *)
(* ================================================================== *)

Section WithYaml.
Context {yaml : Yaml}.

(** Extract comments from a template and return them as a dictionary. *)
Definition get_comments_obj (template_str : str) : value :=
  match get_comments template_str with
  | [] => VDict []
  | comments =>
    match safe_load comments with
    | Some result => result
    | None => VDict []
    end
  end.

(* ================================================================== *)
(** * model.py *)
(* ================================================================== *)

Record SQLUnitMock := {
  mock_name : str;
  mock_typ : SQLUnitMockType;
  mock_default : option value;
  mock_columns : option (dict str)
}.

(** The [after] validator of [SQLUnitMock]. *)
Definition SQLUnitMock_validate_type (self : SQLUnitMock)
  : result SQLUnitMock :=
  match mock_typ self, mock_columns self with
  | table, None => Raise ValueError
  | _, _ => Ok self
  end.

(** pydantic's check of a [dict[str, str]] field. *)
Fixpoint str_dict (items : list (str * value)) : option (dict str) :=
  match items with
  | [] => Some []
  | (k, VStr s) :: r =>
    match str_dict r with Some d => Some ((k, s) :: d) | None => None end
  | _ => None
  end.

(** [SQLUnitMock(name=identifier, **kw)]: pydantic reads [type] (the
    alias of [typ]), [default] and [columns], ignores other keys, and then
    runs the validator. *)
Definition SQLUnitMock_new (identifier : str) (kw : dict value)
  : result SQLUnitMock :=
  match dict_get "type" kw with
  | Some (VStr s) =>
    match SQLUnitMockType_of_str s with
    | None => Raise ValueError
    | Some t =>
      let default := match dict_get "default" kw with
                     | Some VNone | None => None
                     | Some d => Some d
                     end in
      match dict_get "columns" kw with
      | None | Some VNone =>
        SQLUnitMock_validate_type
          {| mock_name := identifier; mock_typ := t;
             mock_default := default; mock_columns := None |}
      | Some (VDict items) =>
        match str_dict items with
        | Some cols =>
          SQLUnitMock_validate_type
            {| mock_name := identifier; mock_typ := t;
               mock_default := default; mock_columns := Some cols |}
        | None => Raise ValueError
        end
      | Some _ => Raise ValueError
      end
    end
  | _ => Raise ValueError
  end.

(** Create an SQLUnitMock instance from a YAML item. *)
Definition SQLUnitMock_from_yaml_item (key : str) (value_ : value)
  : result SQLUnitMock :=
  match Re.match_ SQLUNIT_IDENTIFIER_PATTERN key with
  | None => Raise ValueError
  | Some m =>
    if negb (str_eqb (Re.group "type" m) "mock") then Raise AssertionError
    else
      let identifier := Re.group "identifier" m in
      match value_ with
      | VDict kw =>
        (* a second [name] keyword *)
        if dict_has "name" kw then Raise TypeError
        else SQLUnitMock_new identifier kw
      | _ => Raise TypeError
      end
  end.

(** Get the default value for the mock, if any.  The outer [None] is
    that of [literal_eval_str]. *)
Definition SQLUnitMock_default_value (self : SQLUnitMock)
  : option (result value) :=
  literal_eval
    (match mock_default self with
     | None => VStr (default_factory (mock_typ self) (mock_name self))
     | Some d => d
     end).

(** [SQLUnitMockSchema]: the mocks of a source, by name. *)
Definition SQLUnitMockSchema := dict SQLUnitMock.

(** The loop of [from_template] over the annotation entries. *)
Fixpoint SQLUnitMockSchema_collect (items : list (str * value))
         (mocks : SQLUnitMockSchema) : result SQLUnitMockSchema :=
  match items with
  | [] => Ok mocks
  | (key, value_) :: rest =>
    if negb (contains "sql-unit.mock" key)
    then SQLUnitMockSchema_collect rest mocks
    else
      match SQLUnitMock_from_yaml_item key value_ with
      | Ok parsed_mock =>
        SQLUnitMockSchema_collect rest
          (dict_set (mock_name parsed_mock) parsed_mock mocks)
      | Raise ValueError => SQLUnitMockSchema_collect rest mocks
      | Raise e => Raise e
      end
  end.

(** Create an SQLUnitMockSchema instance from a template string. *)
Definition SQLUnitMockSchema_from_template (template_str : str)
  : result SQLUnitMockSchema :=
  items <- py_items (get_comments_obj template_str) ;;
  SQLUnitMockSchema_collect items [].

(** A source file: its path and the text [path.read_text()] gives. *)
Record SQLUnitSource := {
  path : str;
  code : str
}.

Definition SQLUnitSource_mock_schema (self : SQLUnitSource)
  : result SQLUnitMockSchema :=
  SQLUnitMockSchema_from_template (code self).

(** Get a specific mock by name. *)
Definition SQLUnitSource_mock (self : SQLUnitSource) (name : str)
  : result (option SQLUnitMock) :=
  schema <- SQLUnitSource_mock_schema self ;;
  Ok (dict_get name schema).

Record YAMLTable := {
  rows : list (dict value);
  columns : dict str
}.

(** The [after] validator of [YAMLTable]: all rows have the columns of
    the table. *)
Definition YAMLTable_validate_columns (self : YAMLTable) : result YAMLTable :=
  match columns self with
  | [] => Raise ValueError
  | _ =>
    if forallb (fun row => set_eqb (dict_keys row) (dict_keys (columns self)))
               (rows self)
    then Ok self
    else Raise ValueError
  end.

(** [YAMLTable(rows=rows, columns=columns)]: [columns] must be a
    dictionary, then the validator runs. *)
Definition YAMLTable_new (rows_ : list (dict value))
           (columns_ : option (dict str)) : result YAMLTable :=
  match columns_ with
  | None => Raise ValueError
  | Some c => YAMLTable_validate_columns {| rows := rows_; columns := c |}
  end.

(** Create an empty YAML table for a mock. *)
Definition YAMLTable_empty_mock_table (mock_table : option SQLUnitMock)
  : result YAMLTable :=
  match mock_table with
  | None => Raise AttributeError
  | Some m => YAMLTable_new [] (mock_columns m)
  end.

(** [map(str.strip, line.split("|")[1:-1])] *)
Definition cells (line : str) : list str :=
  map strip (inner (split_char "|" line)).

(** [{col: val for col, val in zip(columns, map(yaml.safe_load, cells))}]
    as a list of pairs: [map] is lazy, so a cell is loaded only when [zip]
    has a column for it. *)
Fixpoint zip_load (columns_ cells_ : list str) : result (list (str * value)) :=
  match columns_, cells_ with
  | col :: cs, cell :: rest =>
    match safe_load cell with
    | None => Raise YAMLError
    | Some val => r <- zip_load cs rest ;; Ok ((col, val) :: r)
    end
  | _, _ => Ok []
  end.

(** The loop of [from_string] over the data lines. *)
Fixpoint load_rows (columns_ : list str) (lines : list str)
  : result (list (dict value)) :=
  match lines with
  | [] => Ok []
  | line :: rest =>
    match strip line with
    | [] => load_rows columns_ rest
    | _ =>
      pairs <- zip_load columns_ (cells line) ;;
      rs <- load_rows columns_ rest ;;
      Ok (dict_of_pairs pairs :: rs)
    end
  end.

(** The header annotations: the text after [::] in each header cell,
    keyed by the cell, empty ones removed. *)
Definition header_annotations (columns_ : list str) : dict str :=
  filter (fun kv => match snd kv with [] => false | _ => true end)
    (dict_of_pairs
       (map (fun col => (col, match after_first "::" col with
                              | None => []
                              | Some t => strip t
                              end)) columns_)).

(** Create a YAMLTable from a string representation. *)
Definition YAMLTable_from_string (table_str : str) (schema : option (dict str))
  : result YAMLTable :=
  let table_str := strip table_str in
  let lines := splitlines table_str in
  match lines with
  | [] => Raise ValueError
  | line0 :: _ =>
    let header := strip line0 in
    let columns_ := cells header in
    let annotations := header_annotations columns_ in
    match nth_error lines 1 with
    | None => Raise IndexError
    | Some line1 =>
      if negb (forallb (fun c => existsb (Ascii.eqb c) "|- ") (strip line1))
      then Raise ValueError
      else
        rows_ <- load_rows columns_ (skipn 2 lines) ;;
        schema <- match schema with
                  | Some s => Ok s
                  | None =>
                    match rows_ with
                    | row0 :: _ =>
                      mapM (fun kv => t <- native_to_sql_typedef (type_of (snd kv)) ;;
                                      Ok (fst kv, t)) row0
                    | [] => Ok (dict_of_pairs (map (fun col => (col, "string")) columns_))
                    end
                  end ;;
        YAMLTable_new rows_ (Some (dict_update schema annotations))
    end
  end.

(** [YAMLTable.from_string(v, schema)] for an untyped [v]: only a string
    has the [strip] the first line calls. *)
Definition YAMLTable_from_string_any (v : value) (schema : option (dict str))
  : result YAMLTable :=
  match v with
  | VStr s => YAMLTable_from_string s schema
  | _ => Raise AttributeError
  end.

(** [f"cast({val} as {typ}) as {key}"] *)
Definition cast_alias (val typ key : str) : str :=
  "cast(" ++ val ++ " as " ++ typ ++ ") as " ++ key.

(** One [select] of [as_unioned_selects]: the encoded cells of the row,
    zipped with the column types by position. *)
Definition select_of_row (columns_ : dict str) (row : dict value) : result str :=
  sql_values <- mapM (fun kv => v <- native_to_sql (snd kv) ;; Ok (fst kv, v)) row ;;
  let aliases := map (fun p => cast_alias (snd (fst p)) (snd p) (fst (fst p)))
                     (combine sql_values (dict_values columns_)) in
  Ok ("select " ++ join ", " aliases).

(** Convert the YAML table to a set of unioned SQL SELECT statements. *)
Definition YAMLTable_as_unioned_selects (self : YAMLTable) : result str :=
  match rows self with
  | _ :: _ =>
    selects <- mapM (select_of_row (columns self)) (rows self) ;;
    Ok (join (NL ++ "union all" ++ NL) selects)
  | [] =>
    Ok ("select "
        ++ join ", " (map (fun ct => cast_alias "null" (snd ct) (fst ct))
                          (columns self))
        ++ NL ++ "where false")
  end.

(** A value of [given]: a literal table or a raw YAML value. *)
Inductive given_value :=
| GTable (t : YAMLTable)
| GRaw (v : value).

Record SQLUnitTestCase := {
  source : SQLUnitSource;
  name : str;
  expected : YAMLTable;
  given : dict given_value
}.

(** Parse the 'given' conditions from a YAML item. *)
Definition SQLUnitTestCase_parse_given (source_ : SQLUnitSource) (key : str)
           (value_ : value) : result given_value :=
  match Re.match_ SQLUNIT_GIVEN_PATTERN key with
  | None => Raise ValueError
  | Some m =>
    let name_ := Re.group "name" m in
    mock_type <- SQLUnitSource_mock source_ name_ ;;
    match mock_type with
    | None => Raise ValueError
    | Some mt =>
      if SQLUnitMockType_eqb (mock_typ mt) table
      then t <- YAMLTable_from_string_any value_ (mock_columns mt) ;; Ok (GTable t)
      else Ok (GRaw value_)
    end
  end.

(** The backfilling loop of [from_yaml_item] over the names of the
    declared mocks. *)
Fixpoint backfill (source_ : SQLUnitSource) (keys : list str)
         (given_ : dict given_value) : result (dict given_value) :=
  match keys with
  | [] => Ok given_
  | k :: rest =>
    if negb (dict_has k given_)
    then
      m <- SQLUnitSource_mock source_ k ;;
      t <- YAMLTable_empty_mock_table m ;;
      backfill source_ rest (dict_set k (GTable t) given_)
    else backfill source_ rest given_
  end.

(** Create an SQLUnitTestCase instance from a YAML item. *)
Definition SQLUnitTestCase_from_yaml_item (source_ : SQLUnitSource)
           (key : str) (value_ : value) : result SQLUnitTestCase :=
  match Re.match_ SQLUNIT_IDENTIFIER_PATTERN key with
  | None => Raise ValueError
  | Some m =>
    if negb (str_eqb (Re.group "type" m) "test") then Raise ValueError
    else
      let name_ := Re.group "identifier" m in
      has_expected <- py_in "expected" value_ ;;
      if negb has_expected then Raise AssertionError
      else
        e <- py_getitem value_ "expected" ;;
        expected_ <- YAMLTable_from_string_any e None ;;
        items <- py_items value_ ;;
        let given_keys :=
          filter (fun kv => match Re.match_ SQLUNIT_GIVEN_PATTERN (fst kv) with
                            | Some _ => true
                            | None => false
                            end) items in
        parsed <- mapM (fun kv =>
                          v <- SQLUnitTestCase_parse_given source_ (fst kv) (snd kv) ;;
                          Ok (fst kv, v)) given_keys ;;
        let given_ := dict_of_pairs parsed in
        schema <- SQLUnitSource_mock_schema source_ ;;
        given_ <- backfill source_ (dict_keys schema) given_ ;;
        Ok {| source := source_; name := name_;
              expected := expected_; given := given_ |}
  end.

(** The loop of [test_cases] over the annotation entries: only a
    [ValueError] is caught. *)
Fixpoint SQLUnitSource_collect_cases (self : SQLUnitSource)
         (items : list (str * value)) (cases : list SQLUnitTestCase)
  : result (list SQLUnitTestCase) :=
  match items with
  | [] => Ok cases
  | (key, value_) :: rest =>
    if negb (contains "sql-unit.test" key)
    then SQLUnitSource_collect_cases self rest cases
    else
      match SQLUnitTestCase_from_yaml_item self key value_ with
      | Ok case => SQLUnitSource_collect_cases self rest (cases ++ [case])
      | Raise ValueError => SQLUnitSource_collect_cases self rest cases
      | Raise e => Raise e
      end
  end.

(** Extract test cases from the SQL file. *)
Definition SQLUnitSource_test_cases (self : SQLUnitSource)
  : result (list SQLUnitTestCase) :=
  items <- py_items (get_comments_obj (code self)) ;;
  SQLUnitSource_collect_cases self items [].

(** The [given_withs] of [compile]: one fragment per literal table of
    [given]. *)
Fixpoint given_withs (items : list (str * given_value)) : result (list str) :=
  match items with
  | [] => Ok []
  | (name_, GTable t) :: rest =>
    sel <- YAMLTable_as_unioned_selects t ;;
    ws <- given_withs rest ;;
    Ok ((name_ ++ "_table as (" ++ sel ++ ")") :: ws)
  | (_, GRaw _) :: rest => given_withs rest
  end.

(** Lines 280 to 300 of [compile]: the text handed to the template
    engine. *)
Definition injected_source_code (self : SQLUnitTestCase) : result str :=
  let source_code := code (source self) in
  let leading_with_match := Re.match_ leading_with_pattern source_code in
  let source_code :=
    match leading_with_match with
    | Some _ => re_sub_empty leading_with_pattern source_code
    | None => source_code
    end in
  withs <- given_withs (given self) ;;
  let with_clause :=
    match withs with
    | [] => []
    | _ =>
      let with_clause := "with " ++ join ", " withs in
      match leading_with_match with
      | Some _ => with_clause ++ "," ++ NL
      | None => with_clause
      end
    end in
  Ok (with_clause ++ NL ++ source_code).

(** The template engine: the text of a template and a context give the
    rendered text, or an exception of the engine. *)
Class Jinja := render : str -> dict given_value -> result str.

(** The render context of [compile]: the given values, with every
    table-typed mock set to the name of its CTE. *)
Definition render_context (schema : SQLUnitMockSchema)
           (given_ : dict given_value) : dict given_value :=
  fold_left (fun context mock =>
               if SQLUnitMockType_eqb (mock_typ mock) table
               then dict_set (mock_name mock)
                             (GRaw (VStr (mock_name mock ++ "_table"))) context
               else context)
            (dict_values schema) given_.

(** Compile the test case into a SQL query. *)
Definition SQLUnitTestCase_compile {jinja : Jinja} (self : SQLUnitTestCase)
  : result str :=
  injected <- injected_source_code self ;;
  schema <- SQLUnitSource_mock_schema (source self) ;;
  rendered_code <- render injected (render_context schema (given self)) ;;
  Ok (strip rendered_code).

End WithYaml.

(* ================================================================== *)
(** * Sample sources *)
(* ================================================================== *)

Module Demo.

(** A YAML loader that knows the documents of a table: every other text
    is a [yaml.YAMLError]. *)
Definition loader (table_ : list (str * value)) : Yaml :=
  fun text => dict_get text table_.

(** A renderer for templates whose only expressions are [{{ name }}]
    with a string in the context: the expression is replaced by the
    string. *)
Definition substitute : Jinja :=
  fun text context =>
    Ok (fold_left (fun acc entry =>
                     match snd entry with
                     | GRaw (VStr s) => replace ("{{ " ++ fst entry ++ " }}") s acc
                     | _ => acc
                     end) context text).

Definition key_of (kind identifier : str) : str :=
  "sql-unit." ++ kind ++ " " ++ QUOTE ++ identifier ++ QUOTE.

Definition given_key (identifier : str) : str :=
  "given " ++ QUOTE ++ identifier ++ QUOTE.

(** ** The source of the repository's [test_parse_unit_test_case] *)

Definition table_code : str :=
  join NL
    [ [];
      "/*";
      "    # sql-unit";
      [];
      "    " ++ key_of "mock" "mysrc" ++ ":";
      "      type: table";
      "      columns:";
      "        id: int";
      "        name: string";
      "*/";
      "select * from {{ mysrc }} where id = 1 and name is not null";
      [];
      "/*";
      "    # sql-unit";
      [];
      "    " ++ key_of "test" "test_case_1" ++ ":";
      "      expected: |-";
      "        | id | name |";
      "        |----|------|";
      [];
      "    " ++ key_of "test" "test_case_2" ++ ":";
      "      " ++ given_key "mysrc" ++ ": |-";
      "        | id | name |";
      "        |----|------|";
      "        | 1  | foo  |";
      "        | 2  | bar  |";
      "      expected: |-";
      "        | id | name |";
      "        |----|------|";
      "        | 1  | foo  |";
      [];
      "*/";
      [] ].

(** The annotation text [get_comments] extracts from [table_code]. *)
Definition table_comments : str :=
  join NL
    [ key_of "mock" "mysrc" ++ ":";
      "  type: table";
      "  columns:";
      "    id: int";
      "    name: string";
      key_of "test" "test_case_1" ++ ":";
      "  expected: |-";
      "    | id | name |";
      "    |----|------|";
      key_of "test" "test_case_2" ++ ":";
      "  " ++ given_key "mysrc" ++ ": |-";
      "    | id | name |";
      "    |----|------|";
      "    | 1  | foo  |";
      "    | 2  | bar  |";
      "  expected: |-";
      "    | id | name |";
      "    |----|------|";
      "    | 1  | foo  |" ].

Definition table_test_1 : value :=
  VDict [ ("expected", VStr (join NL ["| id | name |"; "|----|------|"])) ].

Definition table_test_2 : value :=
  VDict [ (given_key "mysrc",
           VStr (join NL ["| id | name |"; "|----|------|";
                          "| 1  | foo  |"; "| 2  | bar  |"]));
          ("expected",
           VStr (join NL ["| id | name |"; "|----|------|";
                          "| 1  | foo  |"])) ].

(** The document YAML reads from [table_comments]. *)
Definition table_doc : value :=
  VDict
    [ (key_of "mock" "mysrc",
       VDict [ ("type", VStr "table");
               ("columns", VDict [ ("id", VStr "int");
                                   ("name", VStr "string") ]) ]);
      (key_of "test" "test_case_1", table_test_1);
      (key_of "test" "test_case_2", table_test_2) ].

Definition table_source : SQLUnitSource :=
  {| path := "test_with_cases.sql"; code := table_code |}.

Definition mysrc_columns : dict str := [("id", "int"); ("name", "string")].

(** The test case [from_yaml_item] builds for [test_case_1]. *)
Definition table_case_1 : SQLUnitTestCase :=
  {| source := table_source;
     name := "test_case_1";
     expected := {| rows := [];
                    columns := [("id", "string"); ("name", "string")] |};
     given := [ ("mysrc", GTable {| rows := []; columns := mysrc_columns |}) ] |}.

(** ** A source with one scalar mock and one test *)

Definition scalar_code : str :=
  join NL
    [ "/*";
      "    # sql-unit";
      "    " ++ key_of "mock" "delta" ++ ":";
      "      type: int";
      "    " ++ key_of "test" "t1" ++ ":";
      "      expected: |-";
      "        | id |";
      "        |----|";
      "*/";
      "select {{ delta }} as id" ].

Definition scalar_comments : str :=
  join NL
    [ key_of "mock" "delta" ++ ":";
      "  type: int";
      key_of "test" "t1" ++ ":";
      "  expected: |-";
      "    | id |";
      "    |----|" ].

Definition scalar_test : value :=
  VDict [ ("expected", VStr (join NL ["| id |"; "|----|"])) ].

Definition scalar_doc : value :=
  VDict
    [ (key_of "mock" "delta", VDict [ ("type", VStr "int") ]);
      (key_of "test" "t1", scalar_test) ].

Definition scalar_source : SQLUnitSource :=
  {| path := "scalar.sql"; code := scalar_code |}.

(** ** A source whose second test has no [expected] *)

Definition partial_code : str :=
  join NL
    [ "/*";
      "    # sql-unit";
      "    " ++ key_of "test" "good" ++ ":";
      "      expected: |-";
      "        | id |";
      "        |----|";
      "    " ++ key_of "test" "bad" ++ ":";
      "      note: nothing is expected";
      "*/";
      "select 1 as id" ].

Definition partial_comments : str :=
  join NL
    [ key_of "test" "good" ++ ":";
      "  expected: |-";
      "    | id |";
      "    |----|";
      key_of "test" "bad" ++ ":";
      "  note: nothing is expected" ].

Definition partial_bad : value :=
  VDict [ ("note", VStr "nothing is expected") ].

Definition partial_doc : value :=
  VDict
    [ (key_of "test" "good", scalar_test);
      (key_of "test" "bad", partial_bad) ].

Definition partial_source : SQLUnitSource :=
  {| path := "partial.sql"; code := partial_code |}.

(** ** A source with a leading WITH clause, a table mock and a test *)

Definition with_head : str := "with orders as (select 1 as id)".

Definition with_rest : str :=
  join NL
    [ [];
      "select * from orders join {{ m }} using (id)";
      "/*";
      "    # sql-unit";
      "    " ++ key_of "mock" "m" ++ ":";
      "      type: table";
      "      columns:";
      "        id: int";
      "    " ++ key_of "test" "t" ++ ":";
      "      expected: |-";
      "        | id |";
      "        |----|";
      "*/" ].

Definition with_code : str := with_head ++ with_rest.

Definition with_comments : str :=
  join NL
    [ key_of "mock" "m" ++ ":";
      "  type: table";
      "  columns:";
      "    id: int";
      key_of "test" "t" ++ ":";
      "  expected: |-";
      "    | id |";
      "    |----|" ].

Definition with_doc : value :=
  VDict
    [ (key_of "mock" "m",
       VDict [ ("type", VStr "table");
               ("columns", VDict [ ("id", VStr "int") ]) ]);
      (key_of "test" "t", scalar_test) ].

Definition with_source : SQLUnitSource :=
  {| path := "with.sql"; code := with_code |}.

(** The test case [from_yaml_item] builds for the test [t]. *)
Definition with_case : SQLUnitTestCase :=
  {| source := with_source;
     name := "t";
     expected := {| rows := []; columns := [("id", "string")] |};
     given := [ ("m", GTable {| rows := []; columns := [("id", "int")] |}) ] |}.

(** The loader of the sample sources.  The cell texts are those of the
    tables of the repository's tests. *)
Definition yaml : Yaml :=
  loader [ (table_comments, table_doc);
           (scalar_comments, scalar_doc);
           (partial_comments, partial_doc);
           (with_comments, with_doc);
           ("1", VInt 1); ("2", VInt 2); ("3", VInt 3);
           ("4", VInt 4); ("5", VInt 5); ("6", VInt 6);
           ("foo", VStr "foo"); ("bar", VStr "bar") ].

End Demo.

(* ================================================================== *)
(** * Predicates of the statements *)
(* ================================================================== *)

(** A line free of line boundaries. *)
Definition unbroken (l : str) : bool :=
  forallb (fun c => negb (is_linebreak c)) l.

(** A line of whitespace only. *)
Definition blank (l : str) : bool := forallb isspace l.

(** The whitespace prefix of a line, counted directly. *)
Fixpoint count_lead (l : str) : nat :=
  match l with
  | c :: r => if isspace c then S (count_lead r) else 0
  | [] => 0
  end.

(** A line as the normalisation leaves it. *)
Definition settled (l : str) : Prop :=
  unbroken l = true /\ blank l = false /\ rstrip l = l.

(** The names of the groups of an expression. *)
Fixpoint group_names (re : Re.regex) : list str :=
  match re with
  | Re.Group n r => n :: group_names r
  | Re.Cat a b => group_names a ++ group_names b
  | _ => []
  end.

(** A cell the SQL encoder accepts. *)
Definition encodable (v : value) : Prop := exists s, native_to_sql v = Ok s.

(** The separator of the unioned selects. *)
Definition union_all : str := NL ++ "union all" ++ NL.

(** An entry that [test_cases] gets past: no test key, a constructed
    case, or a [ValueError]. *)
Definition passes {yaml : Yaml} (src : SQLUnitSource) (entry : str * value)
  : Prop :=
  contains "sql-unit.test" (fst entry) = false
  \/ (exists case, SQLUnitTestCase_from_yaml_item src (fst entry) (snd entry)
                   = Ok case)
  \/ SQLUnitTestCase_from_yaml_item src (fst entry) (snd entry)
     = Raise ValueError.

(* ================================================================== *)
(** * Further notions of the statements *)
(* ================================================================== *)

(** The comment text [get_comments] has collected when its loop ends. *)
Definition collected (template_str : str) : str :=
  scan_comments (length template_str) template_str [].

(** The test of the loop of [get_comments]: the comment carries the
    sentinel and not the disabled one. *)
Definition enabled (comment : str) : bool :=
  contains "# sql-unit" comment
  && negb (contains "# sql-unit.disabled" comment).

(** What one comment adds to the collected text. *)
Definition contribution (comment : str) : str :=
  if enabled comment then replace "# sql-unit" [] comment ++ NL else [].

(** An entry that the loop of [from_template] gets past: no mock key, a
    parsed mock, or a [ValueError]. *)
Definition mock_passes (entry : str * value) : Prop :=
  contains "sql-unit.mock" (fst entry) = false
  \/ (exists m, SQLUnitMock_from_yaml_item (fst entry) (snd entry) = Ok m)
  \/ SQLUnitMock_from_yaml_item (fst entry) (snd entry) = Raise ValueError.



(** What the loop of [from_template] keeps true of the mocks it has
    collected: the names are distinct, and a mock is found under its name
    and was parsed from an entry of the document. *)
Definition schema_inv (entries : list (str * value))
           (mocks : SQLUnitMockSchema) : Prop :=
  NoDup (dict_keys mocks)
  /\ forall k m, In (k, m) mocks ->
                 mock_name m = k
                 /\ exists key value_,
                      In (key, value_) entries
                      /\ contains "sql-unit.mock" key = true
                      /\ SQLUnitMock_from_yaml_item key value_ = Ok m.


(** The check of the separator line of [from_string]. *)
Definition separator_line (line : str) : bool :=
  forallb (fun c => existsb (Ascii.eqb c) "|- ") (strip line).

(** The table invariant: what [validate_columns] accepts. *)
Definition valid_table (t : YAMLTable) : Prop :=
  columns t <> []
  /\ Forall (fun row => set_eqb (dict_keys row) (dict_keys (columns t)) = true)
            (rows t).

(** The literal tables of [given], with their keys, in order. *)
Definition tables_of (given_ : dict given_value) : list (str * YAMLTable) :=
  flat_map (fun kv => match snd kv with
                      | GTable t => [(fst kv, t)]
                      | GRaw _ => []
                      end) given_.

(** The test cases that the entries of an annotation document give, in
    the order of the document: an entry counts when its key contains
    [sql-unit.test] and [from_yaml_item] returns a case for it. *)
Definition constructed {yaml : Yaml} (src : SQLUnitSource)
           (entries : list (str * value)) : list SQLUnitTestCase :=
  flat_map (fun kv =>
              if contains "sql-unit.test" (fst kv)
              then match SQLUnitTestCase_from_yaml_item src (fst kv) (snd kv) with
                   | Ok case => [case]
                   | Raise _ => []
                   end
              else []) entries.

(** The names of the table-typed mocks of a schema. *)
Definition table_mock_names (schema : SQLUnitMockSchema) : list str :=
  map mock_name
      (filter (fun m => SQLUnitMockType_eqb (mock_typ m) table)
              (dict_values schema)).

(* ================================================================== *)
(** * Further sample sources *)
(* ================================================================== *)

Module Sample.

(** ** A source whose second annotation has the kind [mockup] *)

Definition mockup_code : str :=
  join NL
    [ "/*";
      "    # sql-unit";
      "    " ++ Demo.key_of "test" "t1" ++ ":";
      "      expected: |-";
      "        | id |";
      "        |----|";
      "    " ++ Demo.key_of "mockup" "m" ++ ":";
      "      type: int";
      "*/";
      "select 1 as id" ].

Definition mockup_comments : str :=
  join NL
    [ Demo.key_of "test" "t1" ++ ":";
      "  expected: |-";
      "    | id |";
      "    |----|";
      Demo.key_of "mockup" "m" ++ ":";
      "  type: int" ].

Definition mockup_value : value := VDict [ ("type", VStr "int") ].

Definition mockup_doc : value :=
  VDict
    [ (Demo.key_of "test" "t1", Demo.scalar_test);
      (Demo.key_of "mockup" "m", mockup_value) ].

Definition mockup_source : SQLUnitSource :=
  {| path := "mockup.sql"; code := mockup_code |}.

(** ** A source with a leading WITH clause and no annotation *)

Definition bare_with_source : SQLUnitSource :=
  {| path := "bare.sql";
     code := "with a as (select 1 as id) select id from a" |}.

Definition bare_with_case : SQLUnitTestCase :=
  {| source := bare_with_source;
     name := "t";
     expected := {| rows := []; columns := [("id", "string")] |};
     given := [] |}.

(** The mock of the repository's [test_parse_unit_test_case]. *)
Definition mysrc : SQLUnitMock :=
  {| mock_name := "mysrc"; mock_typ := table; mock_default := None;
     mock_columns := Some Demo.mysrc_columns |}.

(** A table of two rows, as text. *)
Definition two_rows : str :=
  join NL ["| id | name |"; "|----|------|"; "| 1  | foo  |"; "| 2  | bar  |"].

Definition yaml : Yaml :=
  Demo.loader [ (mockup_comments, mockup_doc);
                (Demo.table_comments, Demo.table_doc);
                ("1", VInt 1); ("2", VInt 2);
                ("foo", VStr "foo"); ("bar", VStr "bar") ].

End Sample.

(* ================================================================== *)
(** * The repository's tests, replayed on the embedding *)
(* ================================================================== *)

Unset Implicit Arguments.

(** [test_get_comments]: a template without block comments. *)
Example test_get_comments_none :
  get_comments
    (join NL [ [];
               "    -- This is a comment";
               "    SELECT * FROM table; -- Another comment";
               "    -- Yet another comment";
               "    " ])
  = [].
Proof. reflexivity. Qed.

(** [test_get_comments]: two tagged comments. *)
Example test_get_comments_two :
  get_comments
    (join NL [ [];
               "/*";
               "    # sql-unit";
               "    #1 item 1";
               "    #2 item 2";
               "    #3 item 3";
               [];
               "*/";
               [];
               "SELECT * FROM table";
               "where true;";
               "/*";
               "    # sql-unit";
               "    another one";
               "*/";
               [];
               "    " ])
  = join NL [ "#1 item 1"; "#2 item 2"; "#3 item 3"; "another one" ].
Proof. reflexivity. Qed.

(** [test_parse_yaml_table]: a table of two rows. *)
Example test_parse_yaml_table_rows :
  let schema := [("one", "int"); ("two", "int"); ("three", "int")] in
  let table_ := {| rows := [ [("one", VInt 1); ("two", VInt 2); ("three", VInt 3)];
                             [("one", VInt 4); ("two", VInt 5); ("three", VInt 6)] ];
                   columns := schema |} in
  @YAMLTable_from_string Demo.yaml
    (join NL [ [];
               "    | one | two | three |";
               "    |-----|-----|-------|";
               "    | 1   | 2   | 3     |";
               "    | 4   | 5   | 6     |";
               "    " ])
    (Some schema)
  = Ok table_
  /\ YAMLTable_as_unioned_selects table_
     = Ok (join NL
             [ "select cast(1 as int) as one, cast(2 as int) as two, cast(3 as int) as three";
               "union all";
               "select cast(4 as int) as one, cast(5 as int) as two, cast(6 as int) as three" ]).
Proof. split; reflexivity. Qed.

(** [test_parse_yaml_table]: a table without rows. *)
Example test_parse_yaml_table_empty :
  let schema := [("should", "int"); ("be", "int"); ("empty", "int")] in
  let table_ := {| rows := []; columns := schema |} in
  @YAMLTable_from_string Demo.yaml
    (join NL [ [];
               "    | should | be | empty |";
               "    |--------|----|-------|";
               "    " ])
    (Some schema)
  = Ok table_
  /\ YAMLTable_as_unioned_selects table_
     = Ok (join NL
             [ "select cast(null as int) as should, cast(null as int) as be, cast(null as int) as empty";
               "where false" ]).
Proof. split; reflexivity. Qed.

(** [test_parse_unit_test_case]: the annotations, the mock schema, the
    two test cases and the compiled text of the first. *)
Example test_parse_unit_test_case :
  get_comments Demo.table_code = Demo.table_comments
  /\ @SQLUnitSource_mock_schema Demo.yaml Demo.table_source
     = Ok [("mysrc", {| mock_name := "mysrc"; mock_typ := table;
                        mock_default := None;
                        mock_columns := Some Demo.mysrc_columns |})]
  /\ (exists case_2,
        @SQLUnitSource_test_cases Demo.yaml Demo.table_source
        = Ok [Demo.table_case_1; case_2]
        /\ name case_2 = "test_case_2"
        /\ rows (expected case_2) = [[("id", VInt 1); ("name", VStr "foo")]])
  /\ @SQLUnitTestCase_compile Demo.yaml Demo.substitute Demo.table_case_1
     = Ok (join NL
             [ "with mysrc_table as (select cast(null as int) as id, cast(null as string) as name";
               "where false)";
               [];
               "/*";
               "    # sql-unit";
               [];
               "    " ++ Demo.key_of "mock" "mysrc" ++ ":";
               "      type: table";
               "      columns:";
               "        id: int";
               "        name: string";
               "*/";
               "select * from mysrc_table where id = 1 and name is not null";
               [];
               "/*";
               "    # sql-unit";
               [];
               "    " ++ Demo.key_of "test" "test_case_1" ++ ":";
               "      expected: |-";
               "        | id | name |";
               "        |----|------|";
               [];
               "    " ++ Demo.key_of "test" "test_case_2" ++ ":";
               "      " ++ Demo.given_key "mysrc" ++ ": |-";
               "        | id | name |";
               "        |----|------|";
               "        | 1  | foo  |";
               "        | 2  | bar  |";
               "      expected: |-";
               "        | id | name |";
               "        |----|------|";
               "        | 1  | foo  |";
               [];
               "*/" ]).
Proof.
  split; [vm_compute; reflexivity|]. split; [vm_compute; reflexivity|].
  split; [|vm_compute; reflexivity].
  eexists. split; [vm_compute; reflexivity|]. split; reflexivity.
Qed.

(* ================================================================== *)
(** * Facts about strings *)
(* ================================================================== *)



Lemma str_eqb_eq a b : str_eqb a b = true <-> a = b.
Proof.
  unfold str_eqb. destruct (list_eq_dec ascii_dec a b); split; congruence.
Qed.

Lemma str_eqb_refl a : str_eqb a a = true.
Proof. now apply str_eqb_eq. Qed.

Lemma str_eqb_neq a b : str_eqb a b = false <-> a <> b.
Proof.
  unfold str_eqb. destruct (list_eq_dec ascii_dec a b); split; congruence.
Qed.

Lemma dropwhile_length p s : length (dropwhile p s) <= length s.
Proof.
  induction s as [|c r IH]; simpl; [lia|].
  destruct (p c); simpl; lia.
Qed.

Lemma dropwhile_nil p s : dropwhile p s = [] <-> forallb p s = true.
Proof.
  induction s as [|c r IH]; simpl; [tauto|].
  destruct (p c); simpl; [exact IH|]. split; discriminate.
Qed.

Lemma indent_count_lead l : indent l = count_lead l.
Proof.
  unfold indent, lstrip. induction l as [|c r IH]; [reflexivity|].
  cbn [dropwhile count_lead]. destruct (isspace c).
  - change (length (c :: r)) with (S (length r)).
    rewrite Nat.sub_succ_l by apply dropwhile_length. now rewrite IH.
  - apply Nat.sub_diag.
Qed.

Lemma rstrip_nil l : rstrip l = [] <-> blank l = true.
Proof.
  unfold blank. induction l as [|c r IH]; simpl; [tauto|].
  destruct (rstrip r) eqn:E.
  - destruct (isspace c); simpl.
    + split; intros _; [now apply IH | reflexivity].
    + split; discriminate.
  - split; [discriminate|]. intros H. apply andb_true_iff in H.
    destruct H as [_ H]. apply IH in H. discriminate.
Qed.

Lemma rstrip_idem l : rstrip (rstrip l) = rstrip l.
Proof.
  induction l as [|c r IH]; simpl; [reflexivity|].
  destruct (rstrip r) as [|d r'] eqn:E.
  - destruct (isspace c) eqn:Ec; simpl; [reflexivity|]. now rewrite Ec.
  - simpl. simpl in IH. rewrite IH. reflexivity.
Qed.

Lemma rstrip_unbroken l : unbroken l = true -> unbroken (rstrip l) = true.
Proof.
  unfold unbroken. induction l as [|c r IH]; simpl; [tauto|].
  intros H. apply andb_true_iff in H. destruct H as [Hc Hr].
  specialize (IH Hr). destruct (rstrip r) as [|d r'] eqn:E.
  - destruct (isspace c); simpl; [reflexivity|]. now rewrite Hc.
  - change (forallb (fun c0 => negb (is_linebreak c0)) (c :: d :: r') = true).
    simpl. rewrite Hc. exact IH.
Qed.

Lemma rstrip_count_lead l :
  blank l = false -> count_lead (rstrip l) = count_lead l.
Proof.
  unfold blank. induction l as [|c r IH]; simpl; [discriminate|].
  intros H. destruct (isspace c) eqn:Ec; simpl in H.
  - specialize (IH H). destruct (rstrip r) as [|d r'] eqn:E.
    + assert (B : blank r = true) by now apply rstrip_nil.
      unfold blank in B. congruence.
    + simpl. rewrite Ec. simpl in IH. now rewrite IH.
  - destruct (rstrip r); simpl; now rewrite Ec.
Qed.

Lemma rstrip_blank l : blank (rstrip l) = blank l.
Proof.
  unfold blank. induction l as [|c r IH]; simpl; [reflexivity|].
  destruct (rstrip r) as [|d r'] eqn:E.
  - assert (B : forallb isspace r = true) by now apply rstrip_nil.
    rewrite B, andb_true_r. destruct (isspace c) eqn:Ec; simpl; [reflexivity|].
    now rewrite Ec.
  - change (isspace c && forallb isspace (d :: r') = isspace c && forallb isspace r).
    now rewrite IH.
Qed.

Lemma nonblank_blank l : nonblank l = negb (blank l).
Proof.
  unfold nonblank, strip, lstrip.
  destruct (dropwhile isspace (rstrip l)) eqn:E.
  - apply dropwhile_nil in E. fold (blank (rstrip l)) in E.
    rewrite rstrip_blank in E. now rewrite E.
  - destruct (blank l) eqn:B; [|reflexivity].
    apply rstrip_nil in B. rewrite B in E. discriminate.
Qed.

Lemma skipn_lead k l :
  k <= count_lead l ->
  blank (skipn k l) = blank l
  /\ count_lead (skipn k l) = count_lead l - k.
Proof.
  revert l. induction k as [|k IH]; intros l H.
  - simpl. split; [reflexivity | lia].
  - destruct l as [|c r]; simpl in *; [lia|].
    destruct (isspace c) eqn:Ec; [|lia].
    destruct (IH r) as [A B]; [lia|]. unfold blank in *. simpl.
    rewrite ?Ec. simpl. split; assumption.
Qed.

Lemma skipn_unbroken k l : unbroken l = true -> unbroken (skipn k l) = true.
Proof.
  unfold unbroken. revert l. induction k as [|k IH]; intros l H; [exact H|].
  destruct l as [|c r]; simpl in *; [reflexivity|].
  apply andb_true_iff in H. now apply IH.
Qed.

Lemma blank_false_nonempty l : blank l = false -> l <> [].
Proof. intros H E. subst. discriminate. Qed.

Lemma list_min_le d l :
  list_min d l <= d /\ Forall (fun x => list_min d l <= x) l.
Proof.
  unfold list_min. induction l as [|x r [A B]]; simpl.
  - split; [lia | constructor].
  - split; [lia|]. constructor; [lia|].
    eapply Forall_impl; [|exact B]. simpl. intros; lia.
Qed.

Lemma list_min_attained d l : list_min d l = d \/ In (list_min d l) l.
Proof.
  unfold list_min. induction l as [|x r IH]; simpl; [now left|].
  destruct (Nat.min_spec x (fold_right Nat.min d r)) as [[_ E]|[_ E]];
    rewrite E; [now right; left|].
  destruct IH; [now left | now right; right].
Qed.

Lemma list_min_zero d l : d = 0 \/ In 0 l -> list_min d l = 0.
Proof.
  unfold list_min. induction l as [|x r IH]; simpl.
  - intros [H|[]]. exact H.
  - intros [H|[H|H]].
    + rewrite IH by now left. lia.
    + subst. reflexivity.
    + rewrite IH by now right. lia.
Qed.

Lemma is_linebreak_LF : is_linebreak LF = true.
Proof. reflexivity. Qed.

Lemma splitlines_unbroken_aux n :
  forall s, length s <= n -> Forall (fun l => unbroken l = true) (splitlines s).
Proof.
  induction n as [|n IH]; intros s H.
  - destruct s; simpl in *; [constructor | lia].
  - destruct s as [|c r]; simpl in *; [constructor|].
    destruct (is_linebreak c) eqn:Ec.
    + constructor; [reflexivity|].
      destruct (Ascii.eqb c CR).
      * destruct r as [|c2 r2]; [constructor|].
        destruct (Ascii.eqb c2 LF); apply IH; simpl in *; lia.
      * apply IH; lia.
    + assert (Hr : Forall (fun l => unbroken l = true) (splitlines r))
        by (apply IH; lia).
      destruct (splitlines r) as [|l ls].
      * constructor; [|constructor]. unfold unbroken. simpl. now rewrite Ec.
      * inversion Hr; subst. constructor; [|assumption].
        unfold unbroken in *. simpl. now rewrite Ec.
Qed.

Lemma splitlines_unbroken s :
  Forall (fun l => unbroken l = true) (splitlines s).
Proof. now apply splitlines_unbroken_aux with (n := length s). Qed.

Lemma splitlines_single l :
  unbroken l = true -> l <> [] -> splitlines l = [l].
Proof.
  unfold unbroken. induction l as [|c r IH]; intros H N; [congruence|].
  simpl in *. apply andb_true_iff in H. destruct H as [Hc Hr].
  apply negb_true_iff in Hc. rewrite Hc.
  destruct r as [|d r']; [reflexivity|].
  rewrite IH; [reflexivity | assumption | discriminate].
Qed.

Lemma splitlines_app_LF l rest :
  unbroken l = true -> splitlines (l ++ LF :: rest) = l :: splitlines rest.
Proof.
  unfold unbroken. induction l as [|c r IH]; intros H.
  - reflexivity.
  - simpl in *. apply andb_true_iff in H. destruct H as [Hc Hr].
    apply negb_true_iff in Hc. rewrite Hc. now rewrite IH.
Qed.

Lemma splitlines_join L :
  Forall (fun l => unbroken l = true /\ l <> []) L ->
  splitlines (join NL L) = L.
Proof.
  induction L as [|p rest IH]; intros H; [reflexivity|].
  inversion H as [|? ? [Hp Np] Hrest]; subst.
  destruct rest as [|q rest'].
  - simpl. now apply splitlines_single.
  - change (join NL (p :: q :: rest')) with (p ++ LF :: join NL (q :: rest')).
    rewrite splitlines_app_LF by assumption. now rewrite IH.
Qed.

Lemma filter_all {A} (f : A -> bool) l :
  Forall (fun x => f x = true) l -> filter f l = l.
Proof.
  induction 1 as [|x r Hx _ IH]; simpl; [reflexivity|]. now rewrite Hx, IH.
Qed.

Lemma map_fixed {A} (f : A -> A) l :
  Forall (fun x => f x = x) l -> map f l = l.
Proof.
  induction 1 as [|x r Hx _ IH]; simpl; [reflexivity|]. now rewrite Hx, IH.
Qed.

(** Text made of settled lines, one of them unindented, is a fixed point
    of the normalisation. *)
Lemma normalize_settled L :
  Forall settled L ->
  Exists (fun l => count_lead l = 0) L ->
  normalize (join NL L) = join NL L.
Proof.
  intros HS HE.
  assert (HU : Forall (fun l => unbroken l = true /\ l <> []) L).
  { eapply Forall_impl; [|exact HS]. intros l (U & B & _).
    split; [exact U | now apply blank_false_nonempty]. }
  unfold normalize. rewrite (splitlines_join _ HU).
  rewrite filter_all.
  2:{ eapply Forall_impl; [|exact HS]. intros l (_ & B & _).
      rewrite nonblank_blank, B. reflexivity. }
  destruct L as [|first others]; [reflexivity|].
  assert (Z : list_min (indent first) (map indent others) = 0).
  { apply list_min_zero. inversion HE as [? ? H0|? ? H0]; subst.
    - left. now rewrite indent_count_lead.
    - right. apply Exists_exists in H0. destruct H0 as (l & Hin & Hl).
      apply in_map_iff. exists l. split; [|assumption].
      now rewrite indent_count_lead. }
  rewrite Z. cbv zeta.
  replace (map (skipn 0) (first :: others)) with (first :: others)
    by (symmetry; apply map_fixed; apply Forall_forall; reflexivity).
  rewrite (splitlines_join _ HU).
  rewrite map_fixed; [reflexivity|].
  eapply Forall_impl; [|exact HS]. now intros l (_ & _ & R).
Qed.

(** The lines the normalisation produces are settled and one of them
    has no indentation. *)
Lemma normalize_lines doc first others :
  filter nonblank (splitlines doc) = first :: others ->
  let m := list_min (indent first) (map indent others) in
  let L := map rstrip (map (skipn m) (first :: others)) in
  normalize doc = join NL L
  /\ Forall settled L
  /\ Exists (fun l => count_lead l = 0) L.
Proof.
  intros E m L.
  assert (H0 : Forall (fun l => unbroken l = true /\ blank l = false)
                      (first :: others)).
  { rewrite <- E. apply Forall_forall. intros l Hin.
    apply filter_In in Hin. destruct Hin as [Hin Hb]. split.
    - pose proof (splitlines_unbroken doc) as HU.
      rewrite Forall_forall in HU. now apply HU.
    - rewrite nonblank_blank in Hb. now apply negb_true_iff in Hb. }
  assert (Hm : Forall (fun l => m <= count_lead l) (first :: others)).
  { destruct (list_min_le (indent first) (map indent others)) as [A B].
    constructor; [now rewrite <- indent_count_lead|].
    apply Forall_forall. intros l Hin. rewrite Forall_forall in B.
    rewrite <- indent_count_lead. apply B. now apply in_map. }
  assert (H1 : Forall (fun l => unbroken l = true /\ blank l = false)
                      (map (skipn m) (first :: others))).
  { apply Forall_forall. intros l' Hin. apply in_map_iff in Hin.
    destruct Hin as (l & <- & Hin). rewrite Forall_forall in H0, Hm.
    destruct (H0 l Hin) as [U B]. destruct (skipn_lead m l (Hm l Hin)) as [B' _].
    split; [now apply skipn_unbroken | congruence]. }
  split; [|split].
  - unfold normalize. rewrite E. fold m. cbv zeta.
    rewrite splitlines_join; [reflexivity|].
    eapply Forall_impl; [|exact H1]. intros l [U B].
    split; [exact U | now apply blank_false_nonempty].
  - unfold L. apply Forall_forall. intros l' Hin. apply in_map_iff in Hin.
    destruct Hin as (l & <- & Hin). rewrite Forall_forall in H1.
    destruct (H1 l Hin) as [U B]. repeat split.
    + now apply rstrip_unbroken.
    + now rewrite rstrip_blank.
    + apply rstrip_idem.
  - assert (Ex : exists l, In l (first :: others) /\ count_lead l = m).
    { destruct (list_min_attained (indent first) (map indent others)) as [A|A].
      - exists first. split; [now left|]. now rewrite <- indent_count_lead.
      - apply in_map_iff in A. destruct A as (l & A & Hin).
        exists l. split; [now right|]. now rewrite <- indent_count_lead. }
    destruct Ex as (l & Hin & Hl). apply Exists_exists.
    exists (rstrip (skipn m l)). split.
    + unfold L. apply in_map, in_map. exact Hin.
    + rewrite Forall_forall in H0. destruct (H0 l Hin) as [_ B].
      assert (Hle : m <= count_lead l) by lia.
      destruct (skipn_lead m l Hle) as [B' C'].
      rewrite rstrip_count_lead by congruence. lia.
Qed.

(** The scanning loop never runs out of rounds: every round shortens
    the template, so any bound from its length on gives the same text. *)
Lemma scan_comments_fuel fuel1 : forall fuel2 template_str comment_doc,
  length template_str <= fuel1 ->
  length template_str <= fuel2 ->
  scan_comments fuel1 template_str comment_doc
  = scan_comments fuel2 template_str comment_doc.
Proof.
  induction fuel1 as [|fuel1 IH]; intros fuel2 s doc H1 H2.
  - destruct s; [|simpl in H1; lia]. destruct fuel2; reflexivity.
  - destruct fuel2 as [|fuel2].
    + destruct s; [reflexivity | simpl in H2; lia].
    + simpl. destruct (find "/*" s) as [i|]; [|reflexivity].
      destruct (find_from "*/" s (i + 2)) as [end_|]; [|reflexivity].
      assert (L : length (skipn (end_ + 2) s) <= length s - 2)
        by (rewrite length_skipn; lia).
      destruct (contains "# sql-unit" (slice s (i + 2) end_)
                && negb (contains "# sql-unit.disabled" (slice s (i + 2) end_)));
        apply IH; lia.
Qed.

(** C8: the indentation normalisation of the comment extractor is
    idempotent: for every text, normalising the normalised text returns
    it unchanged. *)
Theorem normalize_idempotent (doc : str) :
  normalize (normalize doc) = normalize doc.
Proof.
  destruct (filter nonblank (splitlines doc)) as [|first others] eqn:E.
  - assert (N : normalize doc = []) by (unfold normalize; now rewrite E).
    rewrite N. reflexivity.
  - destruct (normalize_lines doc first others E) as (-> & HS & HE).
    now apply normalize_settled.
Qed.

(* ================================================================== *)
(** * Facts about dictionaries and sequences *)
(* ================================================================== *)

Lemma dict_has_set_same {A} k (v : A) d : dict_has k (dict_set k v d) = true.
Proof.
  unfold dict_has. induction d as [|[k' v'] r IH]; simpl.
  - now rewrite str_eqb_refl.
  - destruct (str_eqb k k') eqn:E; simpl; rewrite E; [reflexivity | exact IH].
Qed.

Lemma dict_has_set_other {A} k k' (v : A) d :
  dict_has k d = true -> dict_has k (dict_set k' v d) = true.
Proof.
  unfold dict_has. induction d as [|[k0 v0] r IH]; simpl; [discriminate|].
  destruct (str_eqb k' k0) eqn:E'; simpl; destruct (str_eqb k k0) eqn:E;
    try reflexivity; [tauto | exact IH].
Qed.

Lemma dict_get_set_same {A} k (v : A) d : dict_get k (dict_set k v d) = Some v.
Proof.
  induction d as [|[k' v'] r IH]; simpl.
  - now rewrite str_eqb_refl.
  - destruct (str_eqb k k') eqn:E; simpl; rewrite E; [reflexivity | exact IH].
Qed.

Lemma dict_get_set_other {A} k k' (v : A) d :
  k <> k' -> dict_get k (dict_set k' v d) = dict_get k d.
Proof.
  intros N. induction d as [|[k0 v0] r IH]; simpl.
  - apply str_eqb_neq in N. now rewrite N.
  - destruct (str_eqb k' k0) eqn:E'; simpl.
    + apply str_eqb_eq in E'. subst k0.
      apply str_eqb_neq in N. now rewrite N.
    + now rewrite IH.
Qed.

Lemma dict_keys_set {A} x k (v : A) d :
  In x (dict_keys (dict_set k v d)) -> x = k \/ In x (dict_keys d).
Proof.
  unfold dict_keys. induction d as [|[k' v'] r IH]; simpl.
  - intros [<-|[]]. now left.
  - destruct (str_eqb k k') eqn:E; simpl.
    + intros [<-|H]; right; [now left | now right].
    + intros [<-|H]; [right; now left|].
      destruct (IH H); [now left | right; now right].
Qed.

Lemma dict_keys_update {A} x (e : dict A) : forall d,
  In x (dict_keys (dict_update d e)) ->
  In x (dict_keys d) \/ In x (map fst e).
Proof.
  unfold dict_update. induction e as [|[k v] e IH]; intros d H; simpl in *.
  - now left.
  - destruct (IH _ H) as [H1|H1]; [|right; now right].
    apply dict_keys_set in H1. destruct H1 as [->|H1]; [right | left]; tauto.
Qed.

Lemma dict_get_key {A} k (v : A) d : dict_get k d = Some v -> In k (dict_keys d).
Proof.
  unfold dict_keys. induction d as [|[k' v'] r IH]; simpl; [discriminate|].
  destruct (str_eqb k k') eqn:E.
  - apply str_eqb_eq in E. subst. now left.
  - intros H. right. now apply IH.
Qed.

Lemma dict_has_key {A} k (d : dict A) : dict_has k d = true -> In k (dict_keys d).
Proof.
  unfold dict_has. destruct (dict_get k d) eqn:E; [|discriminate].
  intros _. now apply dict_get_key with (v := a).
Qed.

Lemma mapM_keys {A B} (f : str * A -> result B) l : forall parsed,
  mapM (fun kv => v <- f kv ;; Ok (fst kv, v)) l = Ok parsed ->
  map fst parsed = map fst l.
Proof.
  induction l as [|kv l IH]; intros parsed H; simpl in H.
  - inversion H. reflexivity.
  - destruct (f kv); [|discriminate]. simpl in H.
    destruct (mapM _ l) as [ps|]; [|discriminate]. simpl in H.
    inversion H; subst. simpl. now rewrite (IH ps).
Qed.

Lemma mapM_total {A B} (f : A -> result B) l :
  Forall (fun x => exists y, f x = Ok y) l ->
  exists ys, mapM f l = Ok ys /\ Forall2 (fun x y => f x = Ok y) l ys.
Proof.
  induction 1 as [|x r [y Hy] _ (ys & E & F)]; simpl.
  - exists []. split; [reflexivity | constructor].
  - rewrite Hy, E. simpl. exists (y :: ys). split; [reflexivity|].
    now constructor.
Qed.

(* ================================================================== *)
(** * Facts about the matcher and the patterns *)
(* ================================================================== *)

Lemma starts_with_split p : forall s,
  starts_with p s = true -> s = p ++ skipn (length p) s.
Proof.
  induction p as [|a p IH]; intros s H; [reflexivity|].
  destruct s as [|b s]; simpl in H; [discriminate|].
  apply andb_true_iff in H. destruct H as [E H].
  apply Ascii.eqb_eq in E. subst b. simpl. f_equal. now apply IH.
Qed.

Lemma starts_with_app p x : starts_with p (p ++ x) = true.
Proof.
  induction p as [|a p IH]; [reflexivity|].
  simpl. now rewrite Ascii.eqb_refl, IH.
Qed.

Lemma contains_prefix p x : contains p (p ++ x) = true.
Proof.
  unfold contains. destruct (p ++ x) eqn:E; simpl.
  - destruct p; [reflexivity | discriminate].
  - rewrite <- E, starts_with_app. reflexivity.
Qed.

Lemma seq_cons r rs : Re.seq (r :: rs) = Re.Cat r (Re.seq rs).
Proof. reflexivity. Qed.

Section MatcherFacts.
Variable R : Type.

Lemma rmatch_lit p : forall s g (k : Re.cont R),
  Re.rmatch (Re.lit p) s g k
  = if starts_with p s then k (skipn (length p) s) g else None.
Proof.
  induction p as [|a p IH]; intros s g k; [reflexivity|].
  change (Re.lit (a :: p)) with (Re.Cat (Re.Chr (Ascii.eqb a)) (Re.lit p)).
  destruct s as [|b s]; simpl; [reflexivity|].
  destruct (Ascii.eqb a b); simpl; [apply IH | reflexivity].
Qed.

Lemma star_match_sound greedy p : forall s g (k : Re.cont R) x,
  Re.star_match greedy p s g k = Some x ->
  exists pre s', s = pre ++ s' /\ forallb p pre = true /\ k s' g = Some x.
Proof.
  induction s as [|c r IH]; intros g k x H; simpl in H.
  - now exists [], [].
  - destruct (p c) eqn:Pc; [|now exists [], (c :: r)].
    destruct greedy.
    + destruct (Re.star_match true p r g k) eqn:E.
      * inversion H; subst. destruct (IH _ _ _ E) as (pre & s' & -> & F & K).
        exists (c :: pre), s'. simpl. now rewrite Pc.
      * now exists [], (c :: r).
    + destruct (k (c :: r) g) eqn:E.
      * inversion H; subst. now exists [], (c :: r).
      * destruct (IH _ _ _ H) as (pre & s' & -> & F & K).
        exists (c :: pre), s'. simpl. now rewrite Pc.
Qed.

(** A successful match hands a suffix of the text to the continuation,
    with the groups outside the expression untouched. *)
Lemma rmatch_sound re : forall s g (k : Re.cont R) x,
  Re.rmatch re s g k = Some x ->
  exists pre s' g',
    s = pre ++ s' /\ k s' g' = Some x
    /\ forall n, ~ In n (group_names re) -> dict_get n g' = dict_get n g.
Proof.
  induction re as [|p|r1 IH1 r2 IH2|greedy p|greedy p|name r IH|];
    intros s g k x H; simpl in H.
  - now exists [], s, g.
  - destruct s as [|c s]; [discriminate|]. destruct (p c); [|discriminate].
    now exists [c], s, g.
  - destruct (IH1 _ _ _ _ H) as (pre1 & s1 & g1 & -> & K1 & G1).
    destruct (IH2 _ _ _ _ K1) as (pre2 & s2 & g2 & -> & K2 & G2).
    exists (pre1 ++ pre2), s2, g2. split; [now rewrite app_assoc|].
    split; [assumption|]. intros n Hn. simpl in Hn.
    rewrite G2, G1; [reflexivity| |]; intros Hin; apply Hn, in_or_app; tauto.
  - destruct (star_match_sound _ _ _ _ _ _ H) as (pre & s' & -> & _ & K).
    now exists pre, s', g.
  - destruct s as [|c s]; [discriminate|]. destruct (p c); [|discriminate].
    destruct (star_match_sound _ _ _ _ _ _ H) as (pre & s' & -> & _ & K).
    now exists (c :: pre), s', g.
  - destruct (IH _ _ _ _ H) as (pre & s' & g' & -> & K & G).
    eexists pre, s', _. split; [reflexivity|]. split; [exact K|].
    intros n Hn. simpl in Hn.
    rewrite dict_get_set_other by (intros ->; apply Hn; now left).
    apply G. tauto.
  - destruct s as [|c [|d s]].
    + now exists [], [], g.
    + destruct (Ascii.eqb c LF); [|discriminate]. now exists [], [c], g.
    + discriminate.
Qed.

Lemma rmatch_cat r1 r2 s g (k : Re.cont R) :
  Re.rmatch (Re.Cat r1 r2) s g k
  = Re.rmatch r1 s g (fun s' g' => Re.rmatch r2 s' g' k).
Proof. reflexivity. Qed.

(** A group records the text its expression consumed. *)
Lemma rmatch_group name r s g (k : Re.cont R) x :
  Re.rmatch (Re.Group name r) s g k = Some x ->
  exists pre s' g', s = pre ++ s' /\ k s' (dict_set name pre g') = Some x.
Proof.
  intros H. simpl in H.
  destruct (rmatch_sound _ _ _ _ _ H) as (pre & s' & g' & -> & K & _).
  exists pre, s', g'. split; [reflexivity|].
  rewrite length_app, Nat.add_sub, firstn_app, Nat.sub_diag in K.
  rewrite firstn_all, firstn_0, app_nil_r in K. exact K.
Qed.

(** A group around a repeated class records characters of the class. *)
Lemma rmatch_group_plus name greedy p s g (k : Re.cont R) x :
  Re.rmatch (Re.Group name (Re.Plus greedy p)) s g k = Some x ->
  exists pre s', s = pre ++ s' /\ forallb p pre = true
                 /\ k s' (dict_set name pre g) = Some x.
Proof.
  intros H. simpl in H. destruct s as [|c r]; [discriminate|].
  destruct (p c) eqn:Pc; [|discriminate].
  apply star_match_sound in H. destruct H as (pre & s' & -> & F & K).
  exists (c :: pre), s'. split; [reflexivity|]. split.
  - simpl. now rewrite Pc.
  - change (c :: pre ++ s') with ((c :: pre) ++ s') in K.
    rewrite length_app, Nat.add_sub, firstn_app, Nat.sub_diag in K.
    rewrite firstn_all, firstn_0, app_nil_r in K. exact K.
Qed.

End MatcherFacts.

(** A key the identifier pattern matches starts with [sql-unit.] and the
    text of its [type] group. *)
Lemma identifier_match_shape key m :
  Re.match_ SQLUNIT_IDENTIFIER_PATTERN key = Some m ->
  exists rest, key = "sql-unit." ++ Re.group "type" m ++ rest.
Proof.
  unfold Re.match_, SQLUNIT_IDENTIFIER_PATTERN. intros H.
  rewrite seq_cons, rmatch_cat, rmatch_lit in H.
  destruct (starts_with "sql-unit." key) eqn:P; [|discriminate].
  apply starts_with_split in P.
  rewrite seq_cons, rmatch_cat in H.
  apply rmatch_group in H. destruct H as (pre & s' & g' & E & H).
  apply rmatch_sound in H. destruct H as (_ & s2 & g2 & _ & K & G).
  inversion K; subst m. unfold Re.group. cbn [fst].
  rewrite G.
  - rewrite dict_get_set_same. exists s'. rewrite P at 1. now rewrite E.
  - simpl. intros [N|[]]. discriminate.
Qed.

(** The [identifier] group of a key holds identifier characters only. *)
Lemma identifier_group_chars key m :
  Re.match_ SQLUNIT_IDENTIFIER_PATTERN key = Some m ->
  forallb Re.ident_char (Re.group "identifier" m) = true.
Proof.
  unfold Re.match_, SQLUNIT_IDENTIFIER_PATTERN. intros H.
  rewrite seq_cons, rmatch_cat in H. apply rmatch_sound in H.
  destruct H as (_ & s1 & g1 & _ & H & _).
  rewrite seq_cons, rmatch_cat in H. apply rmatch_sound in H.
  destruct H as (_ & s2 & g2 & _ & H & _).
  rewrite seq_cons, rmatch_cat in H. apply rmatch_sound in H.
  destruct H as (_ & s3 & g3 & _ & H & _).
  rewrite seq_cons, rmatch_cat in H. apply rmatch_sound in H.
  destruct H as (_ & s4 & g4 & _ & H & _).
  rewrite seq_cons, rmatch_cat in H. apply rmatch_group_plus in H.
  destruct H as (pre & s5 & _ & F & H).
  apply rmatch_sound in H. destruct H as (_ & s6 & g6 & _ & K & G).
  inversion K; subst m. unfold Re.group. cbn [fst].
  rewrite G by (simpl; tauto). now rewrite dict_get_set_same.
Qed.

(** A key the given pattern matches starts with [given] and a space. *)
Lemma given_match_prefix key :
  Re.match_ SQLUNIT_GIVEN_PATTERN key <> None ->
  starts_with "given " key = true.
Proof.
  unfold Re.match_, SQLUNIT_GIVEN_PATTERN. intros H.
  rewrite seq_cons, rmatch_cat, rmatch_lit in H.
  destruct (starts_with "given " key); [reflexivity | congruence].
Qed.

(** No text is both a given key and a run of identifier characters. *)
Lemma given_key_no_identifier key :
  Re.match_ SQLUNIT_GIVEN_PATTERN key <> None ->
  forallb Re.ident_char key = false.
Proof.
  intros H. apply given_match_prefix in H. apply starts_with_split in H.
  rewrite H. reflexivity.
Qed.

Lemma test_key_contains key m :
  Re.match_ SQLUNIT_IDENTIFIER_PATTERN key = Some m ->
  Re.group "type" m = "test" ->
  contains "sql-unit.test" key = true.
Proof.
  intros H T. destruct (identifier_match_shape _ _ H) as [rest ->].
  rewrite T. apply (contains_prefix "sql-unit.test" rest).
Qed.

Lemma app_prefix_ex (a b t : str) :
  (exists m, b = m ++ t) -> exists m, a ++ b = m ++ t.
Proof. intros [m ->]. exists (a ++ m). apply app_assoc. Qed.

(** What the leading pattern matches ends with a closing parenthesis:
    the match covers a whole [with ... as ( ... )] text. *)
Lemma leading_with_match_shape code_ g rest :
  Re.match_ leading_with_pattern code_ = Some (g, rest) ->
  exists matched, code_ = matched ++ ")" ++ rest.
Proof.
  unfold Re.match_, leading_with_pattern. intros H.
  do 9 (rewrite seq_cons, rmatch_cat in H; apply rmatch_sound in H;
        destruct H as (? & ? & ? & -> & H & _)).
  rewrite seq_cons, rmatch_cat, rmatch_lit in H.
  match type of H with
  | context [starts_with ")" ?s] =>
    destruct (starts_with ")" s) eqn:P; [|discriminate];
      apply starts_with_split in P
  end.
  cbn [Re.seq Re.rmatch] in H. inversion H; subst rest.
  do 9 apply app_prefix_ex. exists []. exact P.
Qed.

(* ================================================================== *)
(** * The literal table parser *)
(* ================================================================== *)

Section TableParser.
Context {yaml : Yaml}.

(** C10: an input that is one line after stripping has no separator line
    to index, and [from_string] raises [IndexError], whatever the schema. *)
Theorem from_string_single_line (table_str header : str)
        (schema : option (dict str)) :
  splitlines (strip table_str) = [header] ->
  YAMLTable_from_string table_str schema = Raise IndexError.
Proof.
  intros H. unfold YAMLTable_from_string. rewrite H. reflexivity.
Qed.

(** Without columns, every data line loads as an empty row. *)
Lemma load_rows_no_columns lines :
  exists n, load_rows [] lines = Ok (repeat [] n).
Proof.
  induction lines as [|line rest [n IH]]; simpl.
  - now exists 0.
  - destruct (strip line).
    + now exists n.
    + rewrite IH. now exists (S n).
Qed.

Lemma validate_empty_rows n (sch : dict str) :
  YAMLTable_new (repeat [] n) (Some sch)
  = match sch, n with
    | [], _ => Raise ValueError
    | _ :: _, O => Ok {| rows := []; columns := sch |}
    | _ :: _, S _ => Raise ValueError
    end.
Proof.
  unfold YAMLTable_new, YAMLTable_validate_columns. simpl.
  destruct sch as [|kv sch]; [reflexivity|].
  destruct n; reflexivity.
Qed.

(** C7, as the code has it: when the header yields no column names,
    [from_string] without a schema never returns a table: it raises
    [IndexError] for a one-line input and [ValueError] otherwise (with a
    well-formed separator line, from the check of [validate_columns] that
    columns are defined); with a schema it returns a table only for a
    non-empty schema and no data rows, and the table has the columns of
    that schema. *)
Theorem from_string_no_columns (table_str line0 : str) (rest : list str)
        (schema : option (dict str)) :
  splitlines (strip table_str) = line0 :: rest ->
  cells (strip line0) = [] ->
  YAMLTable_from_string table_str None
  = Raise (match rest with [] => IndexError | _ => ValueError end)
  /\ forall t, YAMLTable_from_string table_str schema = Ok t ->
               exists sch, schema = Some sch /\ sch <> []
                           /\ columns t = sch /\ rows t = [].
Proof.
  intros HL HC. unfold YAMLTable_from_string. rewrite HL, HC.
  destruct rest as [|line1 rest']; [split; [reflexivity | discriminate]|].
  cbn [nth_error skipn].
  destruct (negb _); [split; [reflexivity | discriminate]|].
  destruct (load_rows_no_columns rest') as [n ->].
  cbn [bind header_annotations map dict_of_pairs dict_update fold_left filter].
  split.
  - destruct n; reflexivity.
  - intros t Ht. destruct schema as [sch|].
    + cbn [bind] in Ht. rewrite validate_empty_rows in Ht.
      destruct sch as [|kv sch]; [discriminate|].
      destruct n; [|discriminate]. inversion Ht; subst.
      exists (kv :: sch). repeat split. discriminate.
    + destruct n; discriminate.
Qed.

End TableParser.

(** C7 as stated fails: a header without column names and a well-formed
    separator line are rejected with [ValueError]. *)
Lemma header_without_columns_rejected :
  cells (strip "id name") = []
  /\ @YAMLTable_from_string Demo.yaml (join NL ["id name"; "-------"]) None
     = Raise ValueError.
Proof. split; reflexivity. Qed.

(** The header [id name], without a schema and with the schema
    [{id: int}]. *)
Lemma from_string_no_columns_witness :
  (splitlines (strip (join NL ["id name"; "-------"])) = ["id name"; "-------"]
   /\ cells (strip "id name") = [])
  /\ @YAMLTable_from_string Demo.yaml (join NL ["id name"; "-------"]) None
     = Raise ValueError
  /\ forall t,
       @YAMLTable_from_string Demo.yaml (join NL ["id name"; "-------"])
         (Some [("id", "int")]) = Ok t ->
       exists sch, Some [("id", "int")] = Some sch /\ sch <> []
                   /\ columns t = sch /\ rows t = [].
Proof.
  split; [split; reflexivity|].
  apply (@from_string_no_columns Demo.yaml (join NL ["id name"; "-------"])
           "id name" ["-------"] (Some [("id", "int")])); reflexivity.
Defined.

(** A header line alone. *)
Lemma from_string_single_line_witness :
  splitlines (strip "  | id | name |  ") = ["| id | name |"]
  /\ @YAMLTable_from_string Demo.yaml "  | id | name |  " None
     = Raise IndexError.
Proof.
  split; [reflexivity|].
  apply (@from_string_single_line Demo.yaml "  | id | name |  " "| id | name |").
  reflexivity.
Defined.

(** C5 at a concrete input: the header cell [id::int] against the schema
    [{id: string}].  The type of [id] stays [string] and the annotation
    lands under the key [id::int]; with a data row the row has the key
    [id::int] only and the table is rejected; without a schema the
    column is called [id::int]. *)
Theorem from_string_inline_annotation :
  @YAMLTable_from_string Demo.yaml
    (join NL ["| id::int |"; "|---------|"]) (Some [("id", "string")])
  = Ok {| rows := [];
          columns := [("id", "string"); ("id::int", "int")] |}
  /\ @YAMLTable_from_string Demo.yaml
       (join NL ["| id::int |"; "|---------|"; "| 1       |"])
       (Some [("id", "string")])
     = Raise ValueError
  /\ @YAMLTable_from_string Demo.yaml
       (join NL ["| id::int |"; "|---------|"]) None
     = Ok {| rows := []; columns := [("id::int", "int")] |}.
Proof. repeat split; reflexivity. Qed.

(* ================================================================== *)
(** * Unioned selects *)
(* ================================================================== *)

Lemma select_of_row_total cols row :
  Forall (fun kv => encodable (snd kv)) row ->
  exists aliases, select_of_row cols row = Ok ("select " ++ join ", " aliases).
Proof.
  intros H. unfold select_of_row.
  destruct (mapM_total
              (fun kv => v <- native_to_sql (snd kv) ;; Ok (fst kv, v)) row)
    as (vals & -> & _).
  - eapply Forall_impl; [|exact H]. intros kv [s E]. rewrite E. simpl. eauto.
  - simpl. eauto.
Qed.

Lemma select_of_row_form cols row sel :
  select_of_row cols row = Ok sel ->
  exists aliases, sel = "select " ++ join ", " aliases.
Proof.
  unfold select_of_row. destruct (mapM _ row); simpl; [|discriminate].
  intros H. inversion H. eauto.
Qed.

Lemma contains_cons p c s :
  contains p (c :: s) = starts_with p (c :: s) || contains p s.
Proof.
  unfold contains.
  replace (find p (c :: s))
    with (if starts_with p (c :: s) then Some 0 else option_map S (find p s))
    by reflexivity.
  destruct (starts_with p (c :: s)); [reflexivity|].
  simpl. destruct (find p s); reflexivity.
Qed.

Lemma contains_nil_l s : contains [] s = true.
Proof. destruct s; reflexivity. Qed.

Lemma starts_with_before_LF p : forall a b,
  unbroken p = true ->
  starts_with p (a ++ LF :: b) = true -> starts_with p a = true.
Proof.
  unfold unbroken. induction p as [|x p IH]; intros a b U H; [reflexivity|].
  simpl in U. apply andb_true_iff in U. destruct U as [Ux Up].
  destruct a as [|c a]; simpl in *.
  - apply andb_true_iff in H. destruct H as [E _].
    apply Ascii.eqb_eq in E. subst x. discriminate.
  - apply andb_true_iff in H. destruct H as [E H]. rewrite E. simpl.
    now apply IH with (b := b).
Qed.

(** Text without a line boundary that occurs in two parts joined by a
    line feed occurs in one of the parts. *)
Lemma contains_across_LF p a b :
  unbroken p = true ->
  contains p (a ++ LF :: b) = true ->
  contains p a = true \/ contains p b = true.
Proof.
  intros U. induction a as [|c a IH]; intros H.
  - simpl in H. rewrite contains_cons in H. apply orb_true_iff in H.
    destruct H as [H|H]; [|now right].
    left. destruct p as [|x p]; [reflexivity|].
    simpl in H. apply andb_true_iff in H. destruct H as [E _].
    apply Ascii.eqb_eq in E. subst x. discriminate.
  - change ((c :: a) ++ LF :: b) with (c :: (a ++ LF :: b)) in H.
    rewrite contains_cons in H. apply orb_true_iff in H.
    rewrite contains_cons. destruct H as [H|H].
    + left. apply orb_true_iff. left.
      now apply (starts_with_before_LF p (c :: a) b).
    + destruct (IH H) as [A|B]; [left | now right].
      apply orb_true_iff. now right.
Qed.

(** Text without a line boundary that is no part of [union all] occurs
    in the joined selects only inside one of them. *)
Lemma contains_join_union_all p selects :
  unbroken p = true ->
  contains p "union all" = false ->
  contains p (join union_all selects) = true ->
  Exists (fun sel => contains p sel = true) selects.
Proof.
  intros U N. induction selects as [|s rest IH]; intros H.
  - simpl in H. destruct p; discriminate.
  - destruct rest as [|s2 rest].
    + now constructor.
    + change (join union_all (s :: s2 :: rest))
        with (s ++ LF :: ("union all" ++ LF :: join union_all (s2 :: rest)))
        in H.
      apply contains_across_LF in H; [|exact U].
      destruct H as [H|H]; [now constructor|].
      apply contains_across_LF in H; [|exact U].
      destruct H as [H|H]; [congruence|].
      apply Exists_cons_tl. now apply IH.
Qed.

(** C2, as the code has it.  With zero rows the result is the single
    clause [select] of one [cast(null as <type>) as <col>] per column in
    declared order, followed by a line feed and [where false].  With rows
    whose cells the encoder accepts, the result is one [select] clause per
    row, joined by [union all] lines, with nothing appended; the text
    [where false] occurs in it only inside the clause of a row. *)
Theorem as_unioned_selects_shape (t : YAMLTable) :
  (rows t = [] ->
   YAMLTable_as_unioned_selects t
   = Ok ("select "
         ++ join ", " (map (fun ct => "cast(null as " ++ snd ct ++ ") as " ++ fst ct)
                           (columns t))
         ++ NL ++ "where false"))
  /\ (rows t <> [] ->
      Forall (Forall (fun kv => encodable (snd kv))) (rows t) ->
      exists selects,
        YAMLTable_as_unioned_selects t = Ok (join union_all selects)
        /\ length selects = length (rows t)
        /\ Forall2 (fun row sel => select_of_row (columns t) row = Ok sel)
                   (rows t) selects
        /\ Forall (fun sel => exists aliases,
                                sel = "select " ++ join ", " aliases) selects
        /\ (contains "where false" (join union_all selects) = true ->
            Exists (fun sel => contains "where false" sel = true) selects)).
Proof.
  unfold YAMLTable_as_unioned_selects. split.
  - intros ->. reflexivity.
  - intros NE HE. destruct (rows t) as [|row0 others] eqn:ER; [congruence|].
    destruct (mapM_total (select_of_row (columns t)) (row0 :: others))
      as (selects & EM & F2).
    { eapply Forall_impl; [|exact HE]. intros row Hrow.
      destruct (select_of_row_total (columns t) row Hrow) as [aliases E].
      eauto. }
    exists selects. rewrite EM. split; [reflexivity|].
    split; [symmetry; exact (Forall2_length F2)|].
    split; [exact F2|]. split.
    + clear EM HE ER NE. induction F2 as [|row sel rs ss Hsel _ IH]; constructor.
      * now apply select_of_row_form with (cols := columns t) (row := row).
      * exact IH.
    + apply contains_join_union_all; reflexivity.
Qed.

(** C2 as stated fails on the text [where false]: a table of one row
    whose cell is the string [where false] passes the validation of the
    table, and its single [select] contains [where false]. *)
Lemma where_false_cell_in_select :
  let t := {| rows := [[("name", VStr "where false")]];
              columns := [("name", "string")] |} in
  YAMLTable_validate_columns t = Ok t
  /\ YAMLTable_as_unioned_selects t
     = Ok "select cast('where false' as string) as name"
  /\ contains "where false" "select cast('where false' as string) as name"
     = true.
Proof. repeat split; reflexivity. Qed.

(** A table of two rows. *)
Lemma as_unioned_selects_shape_witness :
  let t := {| rows := [ [("one", VInt 1); ("two", VInt 2)];
                        [("one", VInt 4); ("two", VInt 5)] ];
              columns := [("one", "int"); ("two", "int")] |} in
  (rows t <> [] /\ Forall (Forall (fun kv => encodable (snd kv))) (rows t))
  /\ exists selects,
       YAMLTable_as_unioned_selects t = Ok (join union_all selects)
       /\ length selects = length (rows t)
       /\ Forall2 (fun row sel => select_of_row (columns t) row = Ok sel)
                  (rows t) selects
       /\ Forall (fun sel => exists aliases,
                               sel = "select " ++ join ", " aliases) selects
       /\ (contains "where false" (join union_all selects) = true ->
           Exists (fun sel => contains "where false" sel = true) selects).
Proof.
  intros t.
  assert (NE : rows t <> []) by discriminate.
  assert (EN : Forall (Forall (fun kv => encodable (snd kv))) (rows t)).
  { repeat constructor; eexists; reflexivity. }
  split; [split; assumption|].
  exact (proj2 (as_unioned_selects_shape t) NE EN).
Defined.

(* ================================================================== *)
(** * Default values of mocks *)
(* ================================================================== *)

(** C6 at the [bool] type: the default text [false] is a bare name for
    [ast.literal_eval], which raises [ValueError]; no default value is
    produced for any [bool] mock without an explicit default. *)
Theorem default_value_bool (name_ : str) (cols : option (dict str)) :
  SQLUnitMock_default_value
    {| mock_name := name_; mock_typ := bool_;
       mock_default := None; mock_columns := cols |}
  = Some (Raise ValueError).
Proof. reflexivity. Qed.

(** The defaults of the four types whose text does not mention the name. *)
Lemma default_value_constant (name_ : str) (cols : option (dict str)) :
  let mock t := {| mock_name := name_; mock_typ := t;
                   mock_default := None; mock_columns := cols |} in
  SQLUnitMock_default_value (mock mapping) = Some (Ok (VDict []))
  /\ SQLUnitMock_default_value (mock sequence) = Some (Ok (VList []))
  /\ SQLUnitMock_default_value (mock int_) = Some (Ok (VInt 0))
  /\ SQLUnitMock_default_value (mock float_) = Some (Ok (VFloat "0.0")).
Proof. repeat split; reflexivity. Qed.

(** The defaults of the two types whose text quotes the name, for a name
    that needs no escaping inside double quotes. *)
Lemma literal_eval_quoted (body : str) :
  plain_body DQ body = true ->
  literal_eval_str (QUOTE ++ body ++ QUOTE) = Some (Ok (VStr body)).
Proof.
  intros P. unfold literal_eval_str.
  assert (N : forall lit : str,
             hd DQ lit <> DQ -> lit <> [] ->
             str_eqb (QUOTE ++ body ++ QUOTE) lit = false).
  { intros lit H NE. apply str_eqb_neq. intros E.
    destruct lit as [|c lit]; [congruence|]. inversion E. subst c.
    now apply H. }
  rewrite !N by (try discriminate; cbv; discriminate).
  cbn [app QUOTE is_name andb].
  replace (is_name_start DQ) with false by reflexivity.
  replace (is_digit DQ) with false by reflexivity.
  rewrite Ascii.eqb_refl. cbn [andb orb].
  assert (L : last (body ++ QUOTE) DQ = DQ) by apply last_last.
  assert (RL : removelast (body ++ QUOTE) = body) by apply removelast_last.
  rewrite L, RL, Ascii.eqb_refl, P.
  replace (2 <=? length (DQ :: body ++ QUOTE)) with true; [reflexivity|].
  symmetry. apply Nat.leb_le. simpl. rewrite length_app. simpl. lia.
Qed.

Lemma plain_body_app q a b :
  plain_body q (a ++ b) = plain_body q a && plain_body q b.
Proof. unfold plain_body. apply forallb_app. Qed.

Lemma default_value_named (name_ : str) (cols : option (dict str)) :
  plain_body DQ name_ = true ->
  let mock t := {| mock_name := name_; mock_typ := t;
                   mock_default := None; mock_columns := cols |} in
  SQLUnitMock_default_value (mock table) = Some (Ok (VStr (name_ ++ "_table")))
  /\ SQLUnitMock_default_value (mock str_) = Some (Ok (VStr name_)).
Proof.
  intros P mock. unfold SQLUnitMock_default_value, mock.
  cbn [mock_default mock_typ mock_name literal_eval default_factory]. split.
  - rewrite (app_assoc name_ "_table" QUOTE).
    apply literal_eval_quoted. rewrite plain_body_app, P. reflexivity.
  - now apply literal_eval_quoted.
Qed.

(* ================================================================== *)
(** * Test cases *)
(* ================================================================== *)

Section TestCases.
Context {yaml : Yaml}.

(** The backfilling loop keeps the entries it finds and leaves an entry
    for every key it is run over. *)
Lemma backfill_complete src keys :
  forall given0 given1,
    backfill src keys given0 = Ok given1 ->
    (forall k, dict_has k given0 = true -> dict_has k given1 = true)
    /\ (forall k, In k keys -> dict_has k given1 = true).
Proof.
  induction keys as [|k0 rest IH]; intros given0 given1 H; simpl in H.
  - inversion H; subst. split; [tauto | intros k []].
  - destruct (dict_has k0 given0) eqn:E; simpl in H.
    + destruct (IH _ _ H) as [A B]. split; [exact A|].
      intros k [<-|Hin]; [now apply A | now apply B].
    + destruct (SQLUnitSource_mock src k0) as [m|e]; [|discriminate].
      simpl in H.
      destruct (YAMLTable_empty_mock_table m) as [t|e]; [|discriminate].
      simpl in H. destruct (IH _ _ H) as [A B]. split.
      * intros k Hk. apply A. now apply dict_has_set_other.
      * intros k [<-|Hin]; [|now apply B].
        apply A. apply dict_has_set_same.
Qed.

(** C3: after a successful construction, [given] has an entry for every
    mock declared in the mock schema of the source. *)
Theorem from_yaml_item_given_complete (src : SQLUnitSource) (key : str)
        (value_ : value) (case : SQLUnitTestCase) :
  SQLUnitTestCase_from_yaml_item src key value_ = Ok case ->
  exists schema,
    SQLUnitSource_mock_schema src = Ok schema
    /\ forall mock_name_, In mock_name_ (dict_keys schema) ->
                          dict_has mock_name_ (given case) = true.
Proof.
  unfold SQLUnitTestCase_from_yaml_item. intros H.
  destruct (Re.match_ SQLUNIT_IDENTIFIER_PATTERN key) as [m|]; [|discriminate].
  destruct (negb _); [discriminate|].
  destruct (py_in "expected" value_) as [has|]; [|discriminate].
  cbn [bind] in H. destruct (negb has); [discriminate|].
  destruct (py_getitem value_ "expected") as [e|]; [|discriminate].
  cbn [bind] in H.
  destruct (YAMLTable_from_string_any e None) as [expected_|]; [|discriminate].
  cbn [bind] in H.
  destruct (py_items value_) as [items|]; [|discriminate].
  cbn [bind] in H.
  destruct (mapM _ _) as [parsed|]; [|discriminate].
  cbn [bind] in H.
  destruct (SQLUnitSource_mock_schema src) as [schema|]; [|discriminate].
  cbn [bind] in H.
  destruct (backfill src (dict_keys schema) (dict_of_pairs parsed))
    as [given1|] eqn:B; [|discriminate].
  cbn [bind] in H. inversion H; subst. cbn [given].
  exists schema. split; [reflexivity|].
  now apply (backfill_complete src (dict_keys schema) _ _ B).
Qed.

End TestCases.

(** The first test of the repository's sample source. *)
Lemma from_yaml_item_given_complete_witness :
  @SQLUnitTestCase_from_yaml_item Demo.yaml Demo.table_source
    (Demo.key_of "test" "test_case_1") Demo.table_test_1
  = Ok Demo.table_case_1
  /\ exists schema,
       @SQLUnitSource_mock_schema Demo.yaml Demo.table_source = Ok schema
       /\ forall mock_name_, In mock_name_ (dict_keys schema) ->
            dict_has mock_name_ (given Demo.table_case_1) = true.
Proof.
  split; [reflexivity|].
  exact (@from_yaml_item_given_complete Demo.yaml Demo.table_source
           (Demo.key_of "test" "test_case_1") Demo.table_test_1
           Demo.table_case_1 eq_refl).
Defined.

(** C4 at a concrete input: a source that declares the scalar mock
    [delta] of type [int] and a test with no given entries.  The mock is
    backfilled like a table, the empty table has no columns to take, and
    the construction raises [ValueError]; [test_cases] then skips the
    test. *)
Theorem from_yaml_item_scalar_mock :
  @SQLUnitSource_mock_schema Demo.yaml Demo.scalar_source
  = Ok [("delta", {| mock_name := "delta"; mock_typ := int_;
                     mock_default := None; mock_columns := None |})]
  /\ @SQLUnitTestCase_from_yaml_item Demo.yaml Demo.scalar_source
       (Demo.key_of "test" "t1") Demo.scalar_test
     = Raise ValueError
  /\ @SQLUnitSource_test_cases Demo.yaml Demo.scalar_source = Ok [].
Proof. repeat split; reflexivity. Qed.

Section ScalarMock.
Context {yaml : Yaml}.

Lemma mock_new_name identifier kw m :
  SQLUnitMock_new identifier kw = Ok m -> mock_name m = identifier.
Proof.
  unfold SQLUnitMock_new, SQLUnitMock_validate_type. intros H.
  repeat match type of H with
         | context [match ?x with _ => _ end] => destruct x; try discriminate
         end;
    inversion H; reflexivity.
Qed.

(** The name of a parsed mock is a run of identifier characters. *)
Lemma mock_name_chars key value_ m :
  SQLUnitMock_from_yaml_item key value_ = Ok m ->
  forallb Re.ident_char (mock_name m) = true.
Proof.
  unfold SQLUnitMock_from_yaml_item. intros H.
  destruct (Re.match_ SQLUNIT_IDENTIFIER_PATTERN key) as [mt|] eqn:M;
    [|discriminate].
  destruct (negb _); [discriminate|].
  destruct value_; try discriminate.
  destruct (dict_has "name" items); [discriminate|].
  apply mock_new_name in H. rewrite H.
  now apply identifier_group_chars with (key := key).
Qed.

Lemma collect_mock_names items : forall mocks schema,
  SQLUnitMockSchema_collect items mocks = Ok schema ->
  Forall (fun k => forallb Re.ident_char k = true) (dict_keys mocks) ->
  Forall (fun k => forallb Re.ident_char k = true) (dict_keys schema).
Proof.
  induction items as [|[key value_] rest IH]; intros mocks schema H F;
    simpl in H.
  - inversion H; subst. exact F.
  - destruct (negb (contains "sql-unit.mock" key)); [now apply (IH mocks)|].
    destruct (SQLUnitMock_from_yaml_item key value_) as [m|e] eqn:E.
    + apply (IH _ _ H). apply Forall_forall. intros x Hx.
      apply dict_keys_set in Hx. destruct Hx as [->|Hx].
      * now apply mock_name_chars with (key := key) (value_ := value_).
      * rewrite Forall_forall in F. now apply F.
    + destruct e; try discriminate. now apply (IH mocks).
Qed.

Lemma schema_names src schema :
  SQLUnitSource_mock_schema src = Ok schema ->
  Forall (fun k => forallb Re.ident_char k = true) (dict_keys schema).
Proof.
  unfold SQLUnitSource_mock_schema, SQLUnitMockSchema_from_template.
  destruct (py_items _) as [items|]; [|discriminate]. simpl. intros H.
  apply (collect_mock_names items [] schema H). constructor.
Qed.

(** The loop stops with an exception at a mock without columns that
    [given] does not have. *)
Lemma backfill_blocked src schema k m :
  SQLUnitSource_mock_schema src = Ok schema ->
  dict_get k schema = Some m ->
  mock_columns m = None ->
  forall keys given0,
    In k keys -> dict_has k given0 = false ->
    exists e, backfill src keys given0 = Raise e.
Proof.
  intros HS HG HC.
  assert (HM : SQLUnitSource_mock src k = Ok (Some m)).
  { unfold SQLUnitSource_mock. rewrite HS. simpl. now rewrite HG. }
  induction keys as [|k0 rest IH]; intros given0 Hin Hk; [destruct Hin|].
  simpl. destruct (dict_has k0 given0) eqn:E0; simpl.
  - destruct Hin as [->|Hin]; [congruence|]. now apply IH.
  - destruct (str_eqb k k0) eqn:EK.
    + apply str_eqb_eq in EK. subst k0. rewrite HM. simpl.
      unfold YAMLTable_new. rewrite HC. simpl. eauto.
    + apply str_eqb_neq in EK.
      destruct (SQLUnitSource_mock src k0) as [m0|e]; simpl; [|eauto].
      destruct (YAMLTable_empty_mock_table m0) as [t|e]; simpl; [|eauto].
      apply IH.
      * destruct Hin as [->|Hin]; [congruence | exact Hin].
      * unfold dict_has in *. now rewrite dict_get_set_other.
Qed.

(** For a source that declares a mock without columns (a scalar mock, as
    a table mock must have columns), [from_yaml_item] constructs no test
    case at all, whatever the key and the value. *)
Lemma mock_without_columns_blocks (src : SQLUnitSource)
      (schema : SQLUnitMockSchema) (k : str) (m : SQLUnitMock)
      (key : str) (value_ : value) :
  SQLUnitSource_mock_schema src = Ok schema ->
  dict_get k schema = Some m ->
  mock_columns m = None ->
  exists e, SQLUnitTestCase_from_yaml_item src key value_ = Raise e.
Proof.
  intros HS HG HC. unfold SQLUnitTestCase_from_yaml_item.
  destruct (Re.match_ SQLUNIT_IDENTIFIER_PATTERN key) as [mt|]; [|eauto].
  destruct (negb _); [eauto|].
  destruct (py_in "expected" value_) as [has|]; [|simpl; eauto].
  cbn [bind]. destruct (negb has); [eauto|].
  destruct (py_getitem value_ "expected") as [e|]; [|simpl; eauto].
  cbn [bind].
  destruct (YAMLTable_from_string_any e None) as [expected_|]; [|simpl; eauto].
  cbn [bind].
  destruct (py_items value_) as [items|]; [|simpl; eauto].
  cbn [bind].
  destruct (mapM _ _) as [parsed|] eqn:EP; [|simpl; eauto].
  cbn [bind]. rewrite HS. cbn [bind].
  destruct (backfill_blocked src schema k m HS HG HC (dict_keys schema)
              (dict_of_pairs parsed)) as [e' ->]; [| |simpl; eauto].
  - now apply dict_get_key with (v := m).
  - destruct (dict_has k (dict_of_pairs parsed)) eqn:EH; [|reflexivity].
    exfalso. apply dict_has_key in EH.
    apply dict_keys_update in EH. destruct EH as [[]|EH].
    rewrite (mapM_keys _ _ _ EP) in EH.
    apply in_map_iff in EH. destruct EH as ([k' v'] & <- & EH).
    apply filter_In in EH. destruct EH as [_ EM]. cbn [fst] in *.
    assert (NI : forallb Re.ident_char k' = false).
    { apply given_key_no_identifier.
      destruct (Re.match_ SQLUNIT_GIVEN_PATTERN k'); congruence. }
    pose proof (schema_names src schema HS) as F.
    rewrite Forall_forall in F.
    rewrite (F k') in NI; [discriminate|].
    now apply dict_get_key with (v := m).
Qed.

End ScalarMock.

Section MissingExpected.
Context {yaml : Yaml}.

Lemma collect_cases_propagates src key value_ after :
  contains "sql-unit.test" key = true ->
  SQLUnitTestCase_from_yaml_item src key value_ = Raise AssertionError ->
  forall before cases,
    (exists e, SQLUnitSource_collect_cases src
                 (before ++ (key, value_) :: after) cases = Raise e
               /\ e <> ValueError)
    /\ (Forall (passes src) before ->
        SQLUnitSource_collect_cases src
          (before ++ (key, value_) :: after) cases = Raise AssertionError).
Proof.
  intros HC HA. induction before as [|[k v] before IH]; intros cases.
  - simpl. rewrite HC, HA. simpl. split; [|reflexivity].
    exists AssertionError. split; [reflexivity | discriminate].
  - simpl. destruct (contains "sql-unit.test" k) eqn:Ek; simpl.
    + destruct (SQLUnitTestCase_from_yaml_item src k v) as [case|e] eqn:Ev.
      * destruct (IH (cases ++ [case])) as [A B]. split; [exact A|].
        intros F. inversion F; subst. now apply B.
      * destruct (IH cases) as [A B].
        destruct e;
          try (split;
               [ eexists; split; [reflexivity | discriminate]
               | intros F; inversion F as [|? ? P]; subst;
                 destruct P as [P|[[c P]|P]]; simpl in P; congruence ]).
        split; [exact A|]. intros F. inversion F; subst. now apply B.
    + destruct (IH cases) as [A B]. split; [exact A|].
      intros F. inversion F; subst. now apply B.
Qed.

(** C9: a test entry whose key is well formed and whose value has no
    [expected] makes [from_yaml_item] raise [AssertionError]; [test_cases]
    catches [ValueError] only, so it returns no list for a source with
    such an entry: an exception other than [ValueError] leaves it, and it
    is this [AssertionError] when the entries before it are got past. *)
Theorem test_cases_missing_expected (src : SQLUnitSource) (key : str)
        (value_ : value) (m : dict str * str) :
  Re.match_ SQLUNIT_IDENTIFIER_PATTERN key = Some m ->
  Re.group "type" m = "test" ->
  py_in "expected" value_ = Ok false ->
  SQLUnitTestCase_from_yaml_item src key value_ = Raise AssertionError
  /\ forall before after,
       get_comments_obj (code src) = VDict (before ++ (key, value_) :: after) ->
       (exists e, SQLUnitSource_test_cases src = Raise e /\ e <> ValueError)
       /\ (Forall (passes src) before ->
           SQLUnitSource_test_cases src = Raise AssertionError).
Proof.
  intros HM HT HI.
  assert (HA : SQLUnitTestCase_from_yaml_item src key value_
               = Raise AssertionError).
  { unfold SQLUnitTestCase_from_yaml_item. rewrite HM, HT, HI. reflexivity. }
  split; [exact HA|]. intros before after HD.
  unfold SQLUnitSource_test_cases. rewrite HD. cbn [py_items bind].
  apply collect_cases_propagates; [|exact HA].
  now apply test_key_contains with (m := m).
Qed.

End MissingExpected.

(** A source whose first test is well formed and whose second test has
    no [expected]. *)
Lemma test_cases_missing_expected_witness :
  (Re.match_ SQLUNIT_IDENTIFIER_PATTERN (Demo.key_of "test" "bad")
   = Some ([("type", "test"); ("identifier", "bad")], [])
   /\ py_in "expected" Demo.partial_bad = Ok false)
  /\ @SQLUnitTestCase_from_yaml_item Demo.yaml Demo.partial_source
       (Demo.key_of "test" "bad") Demo.partial_bad = Raise AssertionError
  /\ @SQLUnitSource_test_cases Demo.yaml Demo.partial_source
     = Raise AssertionError.
Proof.
  split; [split; reflexivity|].
  destruct (@test_cases_missing_expected Demo.yaml Demo.partial_source
              (Demo.key_of "test" "bad") Demo.partial_bad
              ([("type", "test"); ("identifier", "bad")], [])
              eq_refl eq_refl eq_refl) as [A B].
  split; [exact A|].
  apply (B [(Demo.key_of "test" "good", Demo.scalar_test)] []);
    [reflexivity|].
  constructor; [|constructor]. right. left. eexists. reflexivity.
Defined.

(* ================================================================== *)
(** * The compiler *)
(* ================================================================== *)

(** For every source with a leading WITH clause and every test case
    with a table in [given], the composed text is the mock CTEs, a comma,
    and the source from behind the closing parenthesis the pattern
    matched: all the pattern matched is dropped, not the keyword alone. *)
Lemma injected_after_leading_with (self : SQLUnitTestCase)
      (g : dict str) (rest : str) (w : str) (ws : list str) :
  Re.match_ leading_with_pattern (code (source self)) = Some (g, rest) ->
  given_withs (given self) = Ok (w :: ws) ->
  injected_source_code self
  = Ok ("with " ++ join ", " (w :: ws) ++ "," ++ NL ++ NL ++ rest)
  /\ exists matched, code (source self) = matched ++ ")" ++ rest.
Proof.
  intros HM HW. split; [|now apply leading_with_match_shape with (g := g)].
  unfold injected_source_code, re_sub_empty. rewrite HM, HW.
  cbn [bind]. f_equal. now rewrite <- !app_assoc.
Qed.

(** C1 at a concrete input: the source [with orders as (select 1 as id)]
    followed by a query and the annotations of a table mock [m] and a test
    [t].  The whole first CTE is removed with the keyword: the composed
    text is the mock CTE, a comma, and what follows the closing parenthesis
    of [orders]; the CTE [orders] is nowhere in it. *)
Theorem compile_drops_leading_cte :
  Demo.with_code = "with orders as (select 1 as id)" ++ Demo.with_rest
  /\ @SQLUnitTestCase_from_yaml_item Demo.yaml Demo.with_source
       (Demo.key_of "test" "t") Demo.scalar_test = Ok Demo.with_case
  /\ injected_source_code Demo.with_case
     = Ok ("with m_table as (select cast(null as int) as id" ++ NL
           ++ "where false)," ++ NL ++ NL ++ Demo.with_rest)
  /\ contains "orders as (select 1 as id)"
       ("with m_table as (select cast(null as int) as id" ++ NL
        ++ "where false)," ++ NL ++ NL ++ Demo.with_rest) = false
  /\ (forall jinja : Jinja,
         @SQLUnitTestCase_compile Demo.yaml jinja Demo.with_case
         = (rendered <- render
                          ("with m_table as (select cast(null as int) as id"
                           ++ NL ++ "where false)," ++ NL ++ NL
                           ++ Demo.with_rest)
                          [("m", GRaw (VStr "m_table"))] ;;
            Ok (strip rendered)))
  /\ @SQLUnitTestCase_compile Demo.yaml Demo.substitute Demo.with_case
     = Ok (join NL
             [ "with m_table as (select cast(null as int) as id";
               "where false),";
               [];
               [];
               "select * from orders join m_table using (id)";
               "/*";
               "    # sql-unit";
               "    " ++ Demo.key_of "mock" "m" ++ ":";
               "      type: table";
               "      columns:";
               "        id: int";
               "    " ++ Demo.key_of "test" "t" ++ ":";
               "      expected: |-";
               "        | id |";
               "        |----|";
               "*/" ]).
Proof.
  split; [reflexivity|]. split; [reflexivity|]. split; [reflexivity|].
  split; [reflexivity|]. split; [|reflexivity]. intros jinja. reflexivity.
Qed.

(* ================================================================== *)
(** * The comment extractor: further properties *)
(* ================================================================== *)

Lemma contains_find_none p s : contains p s = false <-> find p s = None.
Proof. unfold contains. destruct (find p s); split; congruence. Qed.

Lemma scan_comments_no_opener fuel s doc :
  find "/*" s = None -> scan_comments fuel s doc = doc.
Proof. intros H. destruct fuel; simpl; [reflexivity|]. now rewrite H. Qed.

(** The accumulator of the loop is a prefix of its result. *)
Lemma scan_comments_acc fuel : forall s doc,
  scan_comments fuel s doc = doc ++ scan_comments fuel s [].
Proof.
  induction fuel as [|fuel IH]; intros s doc; simpl.
  - now rewrite app_nil_r.
  - destruct (find "/*" s) as [i|]; [|now rewrite app_nil_r].
    destruct (find_from "*/" s (i + 2)) as [e|]; [|now rewrite app_nil_r].
    destruct (contains "# sql-unit" (slice s (i + 2) e)
              && negb (contains "# sql-unit.disabled" (slice s (i + 2) e))).
    + rewrite IH.
      match goal with
      | |- _ = doc ++ scan_comments fuel ?t ?d => rewrite (IH t d)
      end.
      now rewrite <- app_assoc.
    + apply IH.
Qed.

(** The first occurrence of a two-character text. *)
Lemma find_first_pair a b pre rest :
  contains [a; b] (pre ++ [a]) = false ->
  find [a; b] (pre ++ a :: b :: rest) = Some (length pre).
Proof.
  induction pre as [|c pre IH]; intros H.
  - simpl. now rewrite !Ascii.eqb_refl.
  - change ((c :: pre) ++ [a]) with (c :: (pre ++ [a])) in H.
    rewrite contains_cons in H. apply orb_false_iff in H. destruct H as [H1 H2].
    change ((c :: pre) ++ a :: b :: rest) with (c :: (pre ++ a :: b :: rest)).
    replace (find [a; b] (c :: pre ++ a :: b :: rest))
      with (if starts_with [a; b] (c :: pre ++ a :: b :: rest) then Some 0
            else option_map S (find [a; b] (pre ++ a :: b :: rest)))
      by reflexivity.
    assert (E : starts_with [a; b] (c :: pre ++ a :: b :: rest) = false).
    { rewrite <- H1. destruct pre; reflexivity. }
    rewrite E, (IH H2). reflexivity.
Qed.

Lemma skipn_app_exact {A} (pre rest : list A) n :
  n = length pre -> skipn n (pre ++ rest) = rest.
Proof.
  intros ->. rewrite skipn_app, skipn_all, Nat.sub_diag. reflexivity.
Qed.

Lemma firstn_app_exact {A} (pre rest : list A) n :
  n = length pre -> firstn n (pre ++ rest) = pre.
Proof.
  intros ->. rewrite firstn_app, firstn_all, Nat.sub_diag, firstn_0.
  apply app_nil_r.
Qed.

Lemma find_first_pair_app a b pre rest :
  contains [a; b] (pre ++ [a]) = false ->
  find [a; b] (pre ++ [a; b] ++ rest) = Some (length pre).
Proof. apply find_first_pair. Qed.

(** One round of the loop on a template whose first comment is
    [/* body */]. *)
Lemma scan_comments_step fuel pre body tail doc :
  contains "/*" (pre ++ "/") = false ->
  contains "*/" (body ++ "*") = false ->
  scan_comments (S fuel) (pre ++ "/*" ++ body ++ "*/" ++ tail) doc
  = scan_comments fuel tail (doc ++ contribution body).
Proof.
  intros HP HB.
  cbn [scan_comments].
  rewrite (find_first_pair_app _ _ pre (body ++ "*/" ++ tail) HP).
  unfold find_from.
  assert (S1 : skipn (length pre + 2) (pre ++ "/*" ++ body ++ "*/" ++ tail)
               = body ++ "*/" ++ tail).
  { rewrite app_assoc. apply skipn_app_exact. rewrite length_app. reflexivity. }
  rewrite S1.
  rewrite (find_first_pair_app _ _ body tail HB).
  cbn [option_map].
  assert (SL : slice (pre ++ "/*" ++ body ++ "*/" ++ tail)
                     (length pre + 2) (length pre + 2 + length body) = body).
  { unfold slice. rewrite S1. apply firstn_app_exact. lia. }
  rewrite SL.
  assert (SK : skipn (length pre + 2 + length body + 2)
                     (pre ++ "/*" ++ body ++ "*/" ++ tail)
               = tail).
  { rewrite !app_assoc. apply skipn_app_exact. rewrite !length_app. simpl. lia. }
  rewrite SK. unfold contribution, enabled.
  destruct (contains "# sql-unit" body && negb (contains "# sql-unit.disabled" body)).
  - reflexivity.
  - now rewrite app_nil_r.
Qed.

(** X1: a template without a comment opener, or whose first opener is
    never closed, gives the empty text. *)
Theorem get_comments_nothing_to_extract (template_str : str) :
  (contains "/*" template_str = false -> get_comments template_str = [])
  /\ (forall pre rest,
        template_str = pre ++ "/*" ++ rest ->
        contains "/*" (pre ++ "/") = false ->
        contains "*/" rest = false ->
        get_comments template_str = []).
Proof.
  split.
  - intros H. apply contains_find_none in H. unfold get_comments.
    now rewrite (scan_comments_no_opener _ _ _ H).
  - intros pre rest -> HP HR. unfold get_comments.
    destruct (length (pre ++ "/*" ++ rest)) as [|fuel] eqn:L.
    { rewrite length_app in L. simpl in L. lia. }
    cbn [scan_comments].
    rewrite (find_first_pair_app _ _ pre rest HP). unfold find_from.
    rewrite app_assoc, skipn_app_exact by (rewrite length_app; reflexivity).
    apply contains_find_none in HR. rewrite HR. reflexivity.
Qed.

Lemma collected_step (pre body tail : str) :
  contains "/*" (pre ++ "/") = false ->
  contains "*/" (body ++ "*") = false ->
  collected (pre ++ "/*" ++ body ++ "*/" ++ tail)
  = contribution body ++ collected tail.
Proof.
  intros HP HB. unfold collected.
  destruct (length (pre ++ "/*" ++ body ++ "*/" ++ tail)) as [|fuel] eqn:L.
  { rewrite length_app in L. simpl in L. lia. }
  rewrite (scan_comments_step fuel pre body tail [] HP HB).
  rewrite scan_comments_acc. cbn [app]. f_equal.
  apply scan_comments_fuel; [|lia].
  repeat (rewrite ?length_app in L; simpl in L). lia.
Qed.

(** X2: the text collected from a template is what its first comment
    contributes, followed by the text collected from what follows that
    comment; a comment contributes its body with the sentinel removed and
    a line feed when it carries the sentinel and not the disabled one, and
    nothing otherwise. *)
Theorem collected_first_comment (pre body tail : str) :
  contains "/*" (pre ++ "/") = false ->
  contains "*/" (body ++ "*") = false ->
  collected (pre ++ "/*" ++ body ++ "*/" ++ tail)
  = contribution body ++ collected tail.
Proof. apply collected_step. Qed.

(** X3: a comment without the sentinel, or with the disabled sentinel,
    is skipped: the template gives what the text after the comment gives. *)
Theorem get_comments_skips_comment (pre body tail : str) :
  contains "/*" (pre ++ "/") = false ->
  contains "*/" (body ++ "*") = false ->
  enabled body = false ->
  get_comments (pre ++ "/*" ++ body ++ "*/" ++ tail) = get_comments tail.
Proof.
  intros HP HB HE. unfold get_comments. fold (collected tail).
  fold (collected (pre ++ "/*" ++ body ++ "*/" ++ tail)).
  rewrite (collected_step pre body tail HP HB).
  unfold contribution. rewrite HE. reflexivity.
Qed.

(** X4: the text [get_comments] returns is made of its lines joined by
    line feeds; no line is blank, has a line boundary inside or whitespace
    at its end, and, when there is a line, one line has no indentation. *)
Theorem get_comments_lines (template_str : str) :
  exists lines,
    get_comments template_str = join NL lines
    /\ splitlines (get_comments template_str) = lines
    /\ Forall settled lines
    /\ (lines <> [] -> Exists (fun l => count_lead l = 0) lines).
Proof.
  assert (N : forall doc, exists lines,
               normalize doc = join NL lines
               /\ splitlines (normalize doc) = lines
               /\ Forall settled lines
               /\ (lines <> [] -> Exists (fun l => count_lead l = 0) lines)).
  { intros doc.
    destruct (filter nonblank (splitlines doc)) as [|first others] eqn:E.
    - exists []. unfold normalize. rewrite E. repeat split; try constructor.
      congruence.
    - destruct (normalize_lines doc first others E) as (EN & HS & HE).
      eexists. split; [exact EN|]. split; [|split; [exact HS | now intros _]].
      rewrite EN. apply splitlines_join.
      eapply Forall_impl; [|exact HS]. intros l (U & B & _).
      split; [exact U | now apply blank_false_nonempty]. }
  unfold get_comments.
  destruct (scan_comments (length template_str) template_str []) as [|c d].
  - exists []. repeat split; try constructor. congruence.
  - apply N.
Qed.

(* ================================================================== *)
(** * The key patterns: further properties *)
(* ================================================================== *)

Section MatcherMore.
Variable R : Type.

Lemma rmatch_lit_inv p r s g (k : Re.cont R) x :
  Re.rmatch (Re.Cat (Re.lit p) r) s g k = Some x ->
  exists s', s = p ++ s' /\ Re.rmatch r s' g k = Some x.
Proof.
  rewrite rmatch_cat, rmatch_lit.
  destruct (starts_with p s) eqn:P; [|discriminate].
  intros H. exists (skipn (length p) s). split; [|exact H].
  now apply starts_with_split.
Qed.

Lemma rmatch_lit_app p r s' g (k : Re.cont R) :
  Re.rmatch (Re.Cat (Re.lit p) r) (p ++ s') g k = Re.rmatch r s' g k.
Proof.
  rewrite rmatch_cat, rmatch_lit, starts_with_app.
  now rewrite skipn_app, skipn_all, Nat.sub_diag.
Qed.


Lemma consumed_app (pre s' : str) :
  firstn (length (pre ++ s') - length s') (pre ++ s') = pre.
Proof.
  rewrite length_app, Nat.add_sub, firstn_app, Nat.sub_diag, firstn_all, firstn_0.
  apply app_nil_r.
Qed.

(** A group around a repeated class records a non-empty run of the
    class. *)
Lemma rmatch_group_run name greedy p s g (k : Re.cont R) x :
  Re.rmatch (Re.Group name (Re.Plus greedy p)) s g k = Some x ->
  exists pre s', s = pre ++ s' /\ pre <> [] /\ forallb p pre = true
                 /\ k s' (dict_set name pre g) = Some x.
Proof.
  intros H. simpl in H. destruct s as [|c r]; [discriminate|].
  destruct (p c) eqn:Pc; [|discriminate].
  apply star_match_sound in H. destruct H as (pre & s' & -> & F & K).
  exists (c :: pre), s'. split; [reflexivity|]. split; [discriminate|]. split.
  - simpl. now rewrite Pc.
  - change (c :: pre ++ s') with ((c :: pre) ++ s') in K.
    now rewrite consumed_app in K.
Qed.

(** A lazy run hands over as soon as the continuation accepts. *)
Lemma star_lazy_now p s g (k : Re.cont R) x :
  k s g = Some x -> Re.star_match false p s g k = Some x.
Proof.
  intros K. destruct s as [|c r]; simpl; [exact K|].
  destruct (p c); now rewrite K.
Qed.

(** A lazy run goes through the characters at which the continuation
    cannot start. *)
Lemma star_lazy_through p q pre : forall s' g (k : Re.cont R),
  forallb (fun c => p c && q c) pre = true ->
  (forall c r, q c = true -> k (c :: r) g = None) ->
  Re.star_match false p (pre ++ s') g k = Re.star_match false p s' g k.
Proof.
  induction pre as [|a pre IH]; intros s' g k F K; [reflexivity|].
  simpl in F. apply andb_true_iff in F. destruct F as [Fa F].
  apply andb_true_iff in Fa. destruct Fa as [Pa Qa].
  simpl. rewrite Pa, (K a _ Qa). now apply IH.
Qed.

(** A greedy run takes the whole run when the continuation accepts what
    follows it. *)
Lemma star_greedy_all p pre : forall s' g (k : Re.cont R) x,
  forallb p pre = true ->
  match s' with [] => True | c :: _ => p c = false end ->
  k s' g = Some x ->
  Re.star_match true p (pre ++ s') g k = Some x.
Proof.
  induction pre as [|a pre IH]; intros s' g k x F N K.
  - destruct s' as [|c r]; simpl; [exact K|]. now rewrite N.
  - simpl in F. apply andb_true_iff in F. destruct F as [Pa F].
    simpl. rewrite Pa. now rewrite (IH s' g k x F N K).
Qed.

Lemma rmatch_group_plus_cons name greedy p c r g (k : Re.cont R) :
  p c = true ->
  Re.rmatch (Re.Group name (Re.Plus greedy p)) (c :: r) g k
  = Re.star_match greedy p r g
      (fun s' g' =>
         k s' (dict_set name (firstn (length (c :: r) - length s') (c :: r)) g')).
Proof. intros P. simpl. now rewrite P. Qed.

End MatcherMore.

(** The end of the key patterns: the end of the text, or a last line
    feed. *)
Lemma rmatch_end s g m :
  Re.rmatch (Re.seq [Re.Eol]) s g (fun rest g' => Some (g', rest)) = Some m ->
  m = (g, s) /\ (s = [] \/ s = NL).
Proof.
  cbn [Re.seq Re.rmatch]. intros H. destruct s as [|c [|d s]].
  - inversion H. split; [reflexivity | now left].
  - destruct (Ascii.eqb c LF) eqn:E; [|discriminate].
    apply Ascii.eqb_eq in E. subst c. inversion H.
    split; [reflexivity | now right].
  - discriminate.
Qed.

Lemma identifier_shape (key : str) (m : dict str * str) :
  Re.match_ SQLUNIT_IDENTIFIER_PATTERN key = Some m ->
  let kind := Re.group "type" m in
  let identifier := Re.group "identifier" m in
  key = "sql-unit." ++ kind ++ " " ++ QUOTE ++ identifier ++ QUOTE ++ snd m
  /\ (snd m = [] \/ snd m = NL)
  /\ kind <> [] /\ forallb Re.dot kind = true
  /\ identifier <> [] /\ forallb Re.ident_char identifier = true
  /\ fst m = [("type", kind); ("identifier", identifier)].
Proof.
  unfold Re.match_, SQLUNIT_IDENTIFIER_PATTERN. intros H.
  rewrite seq_cons in H. apply rmatch_lit_inv in H. destruct H as (s1 & -> & H).
  rewrite seq_cons, rmatch_cat in H. apply rmatch_group_run in H.
  destruct H as (T & s2 & -> & NT & FT & H).
  rewrite seq_cons in H. apply rmatch_lit_inv in H. destruct H as (s3 & -> & H).
  rewrite seq_cons in H. apply rmatch_lit_inv in H. destruct H as (s4 & -> & H).
  rewrite seq_cons, rmatch_cat in H. apply rmatch_group_run in H.
  destruct H as (I & s5 & -> & NI & FI & H).
  rewrite seq_cons in H. apply rmatch_lit_inv in H. destruct H as (s6 & -> & H).
  apply rmatch_end in H. destruct H as [-> M]. cbn [snd fst].
  replace (Re.group "type" _) with T by reflexivity.
  replace (Re.group "identifier" _) with I by reflexivity.
  repeat split; try assumption.
Qed.

(** X5: a key the identifier pattern accepts is [sql-unit.], a kind, a
    space, and an identifier in double quotes, with at most one line feed
    behind; the kind is not empty and has no line feed, the identifier is
    a non-empty run of identifier characters, and the groups are the kind
    and the identifier. *)
Theorem identifier_pattern_shape (key : str) (m : dict str * str) :
  Re.match_ SQLUNIT_IDENTIFIER_PATTERN key = Some m ->
  let kind := Re.group "type" m in
  let identifier := Re.group "identifier" m in
  key = "sql-unit." ++ kind ++ " " ++ QUOTE ++ identifier ++ QUOTE ++ snd m
  /\ (snd m = [] \/ snd m = NL)
  /\ kind <> [] /\ forallb Re.dot kind = true
  /\ identifier <> [] /\ forallb Re.ident_char identifier = true
  /\ fst m = [("type", kind); ("identifier", identifier)].
Proof. apply identifier_shape. Qed.

(** X6: the identifier pattern accepts every key written as [sql-unit.],
    a kind without spaces or line feeds, a space and a quoted identifier,
    and gives back the kind and the identifier. *)
Theorem identifier_pattern_accepts (kind identifier : str) :
  kind <> [] ->
  forallb (fun c => Re.dot c && negb (Ascii.eqb c " ")) kind = true ->
  identifier <> [] ->
  forallb Re.ident_char identifier = true ->
  Re.match_ SQLUNIT_IDENTIFIER_PATTERN
    ("sql-unit." ++ kind ++ " " ++ QUOTE ++ identifier ++ QUOTE)
  = Some ([("type", kind); ("identifier", identifier)], []).
Proof.
  intros NK FK NI FI. unfold Re.match_, SQLUNIT_IDENTIFIER_PATTERN.
  rewrite seq_cons, rmatch_lit_app.
  rewrite seq_cons, rmatch_cat.
  destruct kind as [|c kind]; [congruence|].
  simpl in FK. apply andb_true_iff in FK. destruct FK as [Fc FK].
  apply andb_true_iff in Fc. destruct Fc as [Dc _].
  rewrite <- app_comm_cons, (rmatch_group_plus_cons _ _ _ _ _ _ _ _ Dc).
  rewrite (star_lazy_through _ Re.dot (fun c => negb (Ascii.eqb c " ")) kind
             _ _ _ FK).
  2:{ intros a r Qa. rewrite seq_cons, rmatch_cat, rmatch_lit.
      cbn [starts_with].
      apply negb_true_iff in Qa. rewrite Ascii.eqb_sym in Qa. now rewrite Qa. }
  apply star_lazy_now. cbv beta.
  rewrite app_comm_cons, consumed_app.
  rewrite seq_cons, rmatch_lit_app.
  rewrite seq_cons, rmatch_lit_app.
  rewrite seq_cons, rmatch_cat.
  destruct identifier as [|d identifier]; [congruence|].
  simpl in FI. apply andb_true_iff in FI. destruct FI as [Pd FI].
  rewrite <- app_comm_cons, (rmatch_group_plus_cons _ _ _ _ _ _ _ _ Pd).
  apply star_greedy_all; [exact FI | reflexivity|]. cbv beta.
  rewrite app_comm_cons, consumed_app. reflexivity.
Qed.

(** X7: a key the given pattern accepts is [given], a space and a name
    in double quotes, with at most one line feed behind; the name is a
    non-empty run of identifier characters; and every key so written is
    accepted with that name. *)
Theorem given_pattern_shape (key : str) :
  (forall m, Re.match_ SQLUNIT_GIVEN_PATTERN key = Some m ->
             key = "given " ++ QUOTE ++ Re.group "name" m ++ QUOTE ++ snd m
             /\ (snd m = [] \/ snd m = NL)
             /\ Re.group "name" m <> []
             /\ forallb Re.ident_char (Re.group "name" m) = true)
  /\ (forall name_, name_ <> [] -> forallb Re.ident_char name_ = true ->
                    key = "given " ++ QUOTE ++ name_ ++ QUOTE ->
                    Re.match_ SQLUNIT_GIVEN_PATTERN key
                    = Some ([("name", name_)], [])).
Proof.
  unfold Re.match_, SQLUNIT_GIVEN_PATTERN. split.
  - intros m H.
    rewrite seq_cons in H. apply rmatch_lit_inv in H. destruct H as (s1 & -> & H).
    rewrite seq_cons in H. apply rmatch_lit_inv in H. destruct H as (s2 & -> & H).
    rewrite seq_cons, rmatch_cat in H. apply rmatch_group_run in H.
    destruct H as (I & s3 & -> & NI & FI & H).
    rewrite seq_cons in H. apply rmatch_lit_inv in H. destruct H as (s4 & -> & H).
    apply rmatch_end in H. destruct H as [-> M]. cbn [snd fst].
    replace (Re.group "name" _) with I by reflexivity.
    repeat split; assumption.
  - intros name_ NI FI ->.
    rewrite seq_cons, rmatch_lit_app.
    rewrite seq_cons, rmatch_lit_app.
    rewrite seq_cons, rmatch_cat.
    destruct name_ as [|d name_]; [congruence|].
    simpl in FI. apply andb_true_iff in FI. destruct FI as [Pd FI].
    rewrite <- app_comm_cons, (rmatch_group_plus_cons _ _ _ _ _ _ _ _ Pd).
    apply star_greedy_all; [exact FI | reflexivity|]. cbv beta.
    rewrite app_comm_cons, consumed_app. reflexivity.
Qed.




(* ================================================================== *)
(** * Mocks and the mock schema: further properties *)
(* ================================================================== *)

Lemma dict_set_entries {A} k (v : A) d k' v' :
  In (k', v') (dict_set k v d) -> (k' = k /\ v' = v) \/ In (k', v') d.
Proof.
  induction d as [|[k0 v0] r IH]; simpl.
  - intros [E|[]]. inversion E. now left.
  - destruct (str_eqb k k0) eqn:E; simpl.
    + apply str_eqb_eq in E. subst k0.
      intros [H|H]; [inversion H; now left | right; now right].
    + intros [H|H]; [right; now left|].
      destruct (IH H); [now left | right; now right].
Qed.

Lemma dict_set_nodup {A} k (v : A) d :
  NoDup (dict_keys d) -> NoDup (dict_keys (dict_set k v d)).
Proof.
  unfold dict_keys. induction d as [|[k0 v0] r IH]; simpl; intros H.
  - constructor; [intros [] | constructor].
  - inversion H as [|? ? N H']; subst.
    destruct (str_eqb k k0) eqn:E; simpl; [now constructor|].
    constructor; [|now apply IH].
    intros Hin. apply (dict_keys_set k0 k v r) in Hin.
    destruct Hin as [->|Hin]; [|contradiction].
    apply str_eqb_neq in E. congruence.
Qed.

Lemma dict_get_entry {A} k (v : A) d :
  NoDup (dict_keys d) -> In (k, v) d -> dict_get k d = Some v.
Proof.
  unfold dict_keys. induction d as [|[k0 v0] r IH]; simpl; intros N H; [tauto|].
  inversion N as [|? ? N0 N']; subst.
  destruct H as [H|H].
  - inversion H; subst. now rewrite str_eqb_refl.
  - destruct (str_eqb k k0) eqn:E.
    + apply str_eqb_eq in E. subst k0. exfalso. apply N0.
      apply in_map_iff. now exists (k, v).
    + now apply IH.
Qed.

Lemma dict_get_entry_inv {A} k (v : A) d : dict_get k d = Some v -> In (k, v) d.
Proof.
  induction d as [|[k0 v0] r IH]; simpl; [discriminate|].
  destruct (str_eqb k k0) eqn:E.
  - apply str_eqb_eq in E. subst k0. intros H. inversion H. now left.
  - intros H. right. now apply IH.
Qed.

Lemma validate_type_table m0 m :
  SQLUnitMock_validate_type m0 = Ok m ->
  mock_typ m = table -> mock_columns m <> None.
Proof.
  unfold SQLUnitMock_validate_type. destruct m0 as [n t d c].
  destruct t, c; cbn; intros H; inversion H; subst; cbn; congruence.
Qed.

Lemma mock_new_table identifier kw m :
  SQLUnitMock_new identifier kw = Ok m ->
  mock_typ m = table -> mock_columns m <> None.
Proof.
  unfold SQLUnitMock_new. intros H.
  destruct (dict_get "type" kw) as [[]|]; try discriminate.
  destruct (SQLUnitMockType_of_str s); [|discriminate].
  destruct (dict_get "columns" kw) as [[]|]; try discriminate;
    try (now apply (validate_type_table _ _ H)).
  destruct (str_dict items); [|discriminate].
  now apply (validate_type_table _ _ H).
Qed.

(** X9: a mock that [SQLUnitMock.from_yaml_item] returns carries the
    identifier of its key, which is [sql-unit.mock] and the quoted name
    (with at most a line feed behind); the name is a non-empty run of
    identifier characters, and a table mock has columns.  A table mock
    declared without columns is rejected with [ValueError]. *)
Theorem mock_from_yaml_item_sound (key : str) (value_ : value) :
  (forall m, SQLUnitMock_from_yaml_item key value_ = Ok m ->
             (key = "sql-unit.mock " ++ QUOTE ++ mock_name m ++ QUOTE
              \/ key = "sql-unit.mock " ++ QUOTE ++ mock_name m ++ QUOTE ++ NL)
             /\ mock_name m <> []
             /\ forallb Re.ident_char (mock_name m) = true
             /\ (mock_typ m = table -> mock_columns m <> None))
  /\ (forall mt kw,
        Re.match_ SQLUNIT_IDENTIFIER_PATTERN key = Some mt ->
        Re.group "type" mt = "mock" ->
        value_ = VDict kw ->
        dict_has "name" kw = false ->
        dict_get "type" kw = Some (VStr "table") ->
        dict_get "columns" kw = None \/ dict_get "columns" kw = Some VNone ->
        SQLUnitMock_from_yaml_item key value_ = Raise ValueError).
Proof.
  split.
  - intros m H. unfold SQLUnitMock_from_yaml_item in H.
    destruct (Re.match_ SQLUNIT_IDENTIFIER_PATTERN key) as [mt|] eqn:M;
      [|discriminate].
    destruct (str_eqb (Re.group "type" mt) "mock") eqn:T; [|discriminate].
    apply str_eqb_eq in T. cbn [negb] in H.
    destruct value_; try discriminate.
    destruct (dict_has "name" items); [discriminate|].
    destruct (identifier_shape key mt M) as (K & Tl & _ & _ & NI & FI & _).
    assert (C : mock_typ m = table -> mock_columns m <> None)
      by (apply (mock_new_table _ _ _ H)).
    apply mock_new_name in H. rewrite H. rewrite T in K.
    split; [|repeat split; assumption].
    destruct Tl as [E|E]; rewrite E in K; [left | right]; rewrite K at 1.
    + now rewrite app_nil_r.
    + reflexivity.
  - intros mt kw M T -> HN HT HC. unfold SQLUnitMock_from_yaml_item.
    rewrite M, T, HN.
    replace (str_eqb "mock" "mock") with true by reflexivity. cbn [negb].
    unfold SQLUnitMock_new. rewrite HT. cbn.
    destruct HC as [-> | ->]; destruct (dict_get "default" kw) as [[]|];
      reflexivity.
Qed.

Section SchemaFacts.
Context {yaml : Yaml}.

Lemma collect_schema_inv entries items : forall mocks schema,
  incl items entries ->
  SQLUnitMockSchema_collect items mocks = Ok schema ->
  schema_inv entries mocks -> schema_inv entries schema.
Proof.
  induction items as [|[key value_] rest IH]; intros mocks schema I H Inv;
    simpl in H.
  - inversion H; subst. exact Inv.
  - assert (I' : incl rest entries) by (intros x Hx; apply I; now right).
    destruct (contains "sql-unit.mock" key) eqn:C; cbn [negb] in H;
      [|now apply (IH mocks)].
    destruct (SQLUnitMock_from_yaml_item key value_) as [m|e] eqn:E.
    + apply (IH _ _ I' H). destruct Inv as [N P]. split.
      * now apply dict_set_nodup.
      * intros k m' Hin. apply dict_set_entries in Hin.
        destruct Hin as [[-> ->]|Hin]; [|now apply P].
        split; [reflexivity|]. exists key, value_.
        split; [apply I; now left|]. now split.
    + destruct e; try discriminate. now apply (IH mocks).
Qed.

(** X10: the mock schema of a template has one entry per mock name; an
    entry is found under the name of its mock, and its mock was parsed
    from an entry of the annotation document whose key contains
    [sql-unit.mock]. *)
Theorem mock_schema_keyed_by_name (template_str : str)
        (schema : SQLUnitMockSchema) :
  SQLUnitMockSchema_from_template template_str = Ok schema ->
  NoDup (dict_keys schema)
  /\ forall k m,
       dict_get k schema = Some m ->
       mock_name m = k
       /\ exists entries key value_,
            get_comments_obj template_str = VDict entries
            /\ In (key, value_) entries
            /\ contains "sql-unit.mock" key = true
            /\ SQLUnitMock_from_yaml_item key value_ = Ok m.
Proof.
  unfold SQLUnitMockSchema_from_template. intros H.
  destruct (get_comments_obj template_str) as [| | | | | |entries|] eqn:D;
    try discriminate.
  cbn [py_items bind] in H.
  destruct (collect_schema_inv entries entries [] schema
              (incl_refl _) H) as [N P].
  { split; [constructor | intros k m []]. }
  split; [exact N|]. intros k m G. apply dict_get_entry_inv in G.
  destruct (P k m G) as (E & key & value_ & HI & HC & HM).
  split; [exact E|]. now exists entries, key, value_.
Qed.


Lemma collect_mock_assertion key value_ after :
  contains "sql-unit.mock" key = true ->
  SQLUnitMock_from_yaml_item key value_ = Raise AssertionError ->
  forall before mocks,
    Forall mock_passes before ->
    SQLUnitMockSchema_collect (before ++ (key, value_) :: after) mocks
    = Raise AssertionError.
Proof.
  intros HC HA. induction before as [|[k v] before IH]; intros mocks F.
  - simpl. now rewrite HC, HA.
  - inversion F as [|? ? P F']; subst. simpl.
    destruct (contains "sql-unit.mock" k) eqn:Ek; cbn [negb]; [|now apply IH].
    destruct P as [P|[[m P]|P]]; cbn [fst snd] in P.
    + congruence.
    + rewrite P. now apply IH.
    + rewrite P. now apply IH.
Qed.

(** X12: an annotation key of the identifier shape whose kind is not
    [mock] but which contains [sql-unit.mock] (a kind such as [mockup], or
    a test named [sql-unit.mock]) is not skipped: [mock_schema] raises
    [AssertionError] when the entries before it are got past, and so does
    every lookup of a mock. *)
Theorem mock_schema_assertion_escapes (src : SQLUnitSource)
        (before after : list (str * value)) (key : str) (value_ : value)
        (mt : dict str * str) :
  get_comments_obj (code src) = VDict (before ++ (key, value_) :: after) ->
  Forall mock_passes before ->
  Re.match_ SQLUNIT_IDENTIFIER_PATTERN key = Some mt ->
  Re.group "type" mt <> "mock" ->
  contains "sql-unit.mock" key = true ->
  SQLUnitSource_mock_schema src = Raise AssertionError
  /\ forall name_, SQLUnitSource_mock src name_ = Raise AssertionError.
Proof.
  intros HD F M T C.
  assert (S : SQLUnitSource_mock_schema src = Raise AssertionError).
  { unfold SQLUnitSource_mock_schema, SQLUnitMockSchema_from_template.
    rewrite HD. cbn [py_items bind].
    apply collect_mock_assertion; [exact C| |exact F].
    unfold SQLUnitMock_from_yaml_item. rewrite M.
    apply str_eqb_neq in T. now rewrite T. }
  split; [exact S|]. intros name_. unfold SQLUnitSource_mock. now rewrite S.
Qed.

End SchemaFacts.




(* ================================================================== *)
(** * Literal tables: further properties *)
(* ================================================================== *)

Lemma table_new_inv rows_ columns_ t :
  YAMLTable_new rows_ columns_ = Ok t ->
  exists c, columns_ = Some c /\ t = {| rows := rows_; columns := c |}
            /\ valid_table t.
Proof.
  unfold YAMLTable_new, YAMLTable_validate_columns. intros H.
  destruct columns_ as [c|]; [|discriminate]. cbn [columns rows] in H.
  destruct c as [|kv c]; [discriminate|].
  destruct (forallb _ rows_) eqn:F; [|discriminate].
  inversion H; subst. exists (kv :: c). split; [reflexivity|].
  split; [reflexivity|]. split; [discriminate|].
  cbn [rows columns]. apply Forall_forall. intros row Hin.
  rewrite forallb_forall in F. now apply F.
Qed.

Lemma validate_columns_iff t :
  YAMLTable_validate_columns t = Ok t <-> valid_table t.
Proof.
  unfold YAMLTable_validate_columns, valid_table. split.
  - intros H. destruct (columns t) as [|kv c] eqn:C; [discriminate|].
    destruct (forallb _ (rows t)) eqn:F; [|discriminate].
    split; [discriminate|]. apply Forall_forall. intros row Hin.
    rewrite forallb_forall in F. now apply F.
  - intros [N F]. destruct (columns t) as [|kv c] eqn:C; [congruence|].
    replace (forallb _ (rows t)) with true; [reflexivity|].
    symmetry. apply forallb_forall. rewrite Forall_forall in F. exact F.
Qed.

Section TableFacts.
Context {yaml : Yaml}.

Lemma load_rows_length columns_ lines : forall rows_,
  load_rows columns_ lines = Ok rows_ ->
  length rows_ = length (filter nonblank lines).
Proof.
  induction lines as [|line rest IH]; intros rows_ H; simpl in H.
  - inversion H. reflexivity.
  - cbn [filter].
    replace (nonblank line) with (match strip line with [] => false | _ => true end)
      by reflexivity.
    destruct (strip line) eqn:S.
    + now apply IH.
    + destruct (zip_load columns_ (cells line)); [|discriminate].
      cbn [bind] in H. destruct (load_rows columns_ rest); [|discriminate].
      cbn [bind] in H. inversion H; subst. simpl. f_equal. now apply IH.
Qed.

(** X14: a table that [from_string] returns keeps the table invariant:
    it has columns and every row has exactly the columns of the table; it
    has one row per non-blank line after the separator line, and it
    passes [validate_columns] again. *)
Theorem from_string_valid (table_str : str) (schema : option (dict str))
        (t : YAMLTable) :
  YAMLTable_from_string table_str schema = Ok t ->
  valid_table t
  /\ YAMLTable_validate_columns t = Ok t
  /\ length (rows t)
     = length (filter nonblank (skipn 2 (splitlines (strip table_str)))).
Proof.
  unfold YAMLTable_from_string. intros H.
  destruct (splitlines (strip table_str)) as [|line0 rest] eqn:L;
    [discriminate|].
  destruct (nth_error (line0 :: rest) 1) as [line1|]; [|discriminate].
  destruct (negb _); [discriminate|].
  destruct (load_rows _ _) as [rows_|] eqn:R; [|discriminate].
  cbn [bind] in H.
  match type of H with
  | bind ?s _ = _ => destruct s as [sch|]; [|discriminate]
  end.
  cbn [bind] in H. apply table_new_inv in H.
  destruct H as (c & _ & -> & V).
  split; [exact V|]. split; [now apply validate_columns_iff|].
  cbn [rows]. now apply load_rows_length with (columns_ := cells (strip line0)).
Qed.

(** X15: [from_string] rejects with [ValueError] an input of whitespace
    only, and an input whose second line has a character other than the
    bar, the dash and the space. *)
Theorem from_string_rejects (table_str : str) (schema : option (dict str)) :
  (blank table_str = true ->
   YAMLTable_from_string table_str schema = Raise ValueError)
  /\ (forall line0 line1 rest,
        splitlines (strip table_str) = line0 :: line1 :: rest ->
        separator_line line1 = false ->
        YAMLTable_from_string table_str schema = Raise ValueError).
Proof.
  split.
  - intros B. unfold YAMLTable_from_string, strip.
    apply rstrip_nil in B. rewrite B. reflexivity.
  - intros line0 line1 rest L S. unfold YAMLTable_from_string.
    rewrite L. cbn [nth_error]. unfold separator_line in S. now rewrite S.
Qed.

Lemma after_first_none sub s :
  contains sub s = false -> after_first sub s = None.
Proof.
  induction s as [|c s IH].
  - unfold contains. simpl. destruct (starts_with sub []); [discriminate|].
    reflexivity.
  - rewrite contains_cons. intros H. apply orb_false_iff in H.
    destruct H as [H1 H2]. cbn [after_first]. rewrite H1. now apply IH.
Qed.

Lemma dict_update_entries {A} k (v : A) (e : dict A) : forall d,
  In (k, v) (dict_update d e) -> In (k, v) d \/ In (k, v) e.
Proof.
  unfold dict_update. induction e as [|[k0 v0] e IH]; intros d H; simpl in *.
  - now left.
  - destruct (IH _ H) as [H1|H1]; [|right; now right].
    apply dict_set_entries in H1.
    destruct H1 as [[-> ->]|H1]; [right; now left | now left].
Qed.

Lemma header_annotations_none columns_ :
  Forall (fun col => contains "::" col = false) columns_ ->
  header_annotations columns_ = [].
Proof.
  intros F. unfold header_annotations.
  match goal with
  | |- filter ?f ?l = [] =>
    assert (G : forall kv, In kv l -> f kv = false)
  end.
  { intros [k v] Hin. unfold dict_of_pairs in Hin.
    apply dict_update_entries in Hin. destruct Hin as [[]|Hin].
    apply in_map_iff in Hin. destruct Hin as (col & E & Hc).
    rewrite Forall_forall in F. rewrite (after_first_none _ _ (F col Hc)) in E.
    inversion E. reflexivity. }
  match goal with
  | |- filter ?f ?l = [] => induction l as [|x r IH]; [reflexivity|]
  end.
  simpl. rewrite (G x) by now left. apply IH. intros kv Hin. apply G. now right.
Qed.

(** X16: when no header cell has an inline [::] annotation, the columns
    of the table [from_string] returns are the schema passed by the
    caller, unchanged; without a schema they are the types inferred from
    the first row, and [string] for every header cell when there is no
    row. *)
Theorem from_string_column_types (table_str line0 : str) (rest : list str)
        (schema : option (dict str)) (t : YAMLTable) :
  splitlines (strip table_str) = line0 :: rest ->
  Forall (fun col => contains "::" col = false) (cells (strip line0)) ->
  YAMLTable_from_string table_str schema = Ok t ->
  match schema, rows t with
  | Some sch, _ => columns t = sch
  | None, [] =>
    columns t = dict_of_pairs (map (fun col => (col, "string")) (cells (strip line0)))
  | None, row0 :: _ =>
    mapM (fun kv => ty <- native_to_sql_typedef (type_of (snd kv)) ;;
                    Ok (fst kv, ty)) row0
    = Ok (columns t)
  end.
Proof.
  intros L F. unfold YAMLTable_from_string. rewrite L.
  rewrite (header_annotations_none _ F).
  destruct (nth_error (line0 :: rest) 1) as [line1|]; [|discriminate].
  destruct (negb _); [discriminate|].
  destruct (load_rows _ _) as [rows_|]; [|discriminate]. cbn [bind].
  destruct schema as [sch|].
  - cbn [bind dict_update fold_left]. intros H. apply table_new_inv in H.
    destruct H as (c & E & -> & _). inversion E. reflexivity.
  - destruct rows_ as [|row0 others].
    + cbn [bind dict_update fold_left]. intros H. apply table_new_inv in H.
      destruct H as (c & E & -> & _). inversion E. reflexivity.
    + destruct (mapM _ row0) as [sch|] eqn:M; [|discriminate].
      cbn [bind dict_update fold_left]. intros H. apply table_new_inv in H.
      destruct H as (c & E & -> & _). inversion E; subst. exact M.
Qed.

End TableFacts.

(** X17: the empty table of a mock exists exactly when the mock has a
    non-empty column schema; it has these columns and no row, and it
    always encodes: one [cast(null as <type>) as <col>] per declared
    column and [where false].  A mock without columns, or with an empty
    column schema, gives [ValueError]. *)
Theorem empty_mock_table_encodes (m : SQLUnitMock) :
  (forall t, YAMLTable_empty_mock_table (Some m) = Ok t <->
             exists cols, mock_columns m = Some cols /\ cols <> []
                          /\ t = {| rows := []; columns := cols |})
  /\ (forall t, YAMLTable_empty_mock_table (Some m) = Ok t ->
                YAMLTable_as_unioned_selects t
                = Ok ("select "
                      ++ join ", " (map (fun ct => cast_alias "null" (snd ct) (fst ct))
                                        (columns t))
                      ++ NL ++ "where false"))
  /\ (mock_columns m = None \/ mock_columns m = Some [] ->
      YAMLTable_empty_mock_table (Some m) = Raise ValueError).
Proof.
  unfold YAMLTable_empty_mock_table, YAMLTable_new, YAMLTable_validate_columns.
  destruct (mock_columns m) as [[|kv cols]|]; cbn.
  - repeat split; try discriminate.
    intros (c & E & N & _). inversion E. congruence.
  - split; [|split; [|intros [H|H]; discriminate]].
    + intros t. split.
      * intros H. inversion H. exists (kv :: cols). repeat split. discriminate.
      * intros (c & E & _ & ->). inversion E. reflexivity.
    + intros t H. inversion H. reflexivity.
  - repeat split; try discriminate. intros (c & E & _). discriminate.
Qed.




(* ================================================================== *)
(** * Test cases: further properties *)
(* ================================================================== *)

Section CaseFacts.
Context {yaml : Yaml}.

(** The parts of a successful [from_yaml_item]. *)
Lemma from_yaml_item_parts src key value_ case :
  SQLUnitTestCase_from_yaml_item src key value_ = Ok case ->
  exists mt items e expected_ parsed schema given1,
    Re.match_ SQLUNIT_IDENTIFIER_PATTERN key = Some mt
    /\ Re.group "type" mt = "test"
    /\ value_ = VDict items
    /\ dict_get "expected" items = Some e
    /\ YAMLTable_from_string_any e None = Ok expected_
    /\ mapM (fun kv => v <- SQLUnitTestCase_parse_given src (fst kv) (snd kv) ;;
                       Ok (fst kv, v))
            (filter (fun kv => match Re.match_ SQLUNIT_GIVEN_PATTERN (fst kv) with
                               | Some _ => true
                               | None => false
                               end) items)
       = Ok parsed
    /\ SQLUnitSource_mock_schema src = Ok schema
    /\ backfill src (dict_keys schema) (dict_of_pairs parsed) = Ok given1
    /\ case = {| source := src; name := Re.group "identifier" mt;
                 expected := expected_; given := given1 |}.
Proof.
  unfold SQLUnitTestCase_from_yaml_item. intros H.
  destruct (Re.match_ SQLUNIT_IDENTIFIER_PATTERN key) as [mt|]; [|discriminate].
  destruct (str_eqb (Re.group "type" mt) "test") eqn:T; [|discriminate].
  apply str_eqb_eq in T. cbn [negb] in H.
  destruct (py_in "expected" value_) as [has|] eqn:PI; [|discriminate].
  cbn [bind] in H. destruct has; [|discriminate]. cbn [negb] in H.
  destruct (py_getitem value_ "expected") as [e|] eqn:PG; [|discriminate].
  cbn [bind] in H.
  destruct (YAMLTable_from_string_any e None) as [expected_|] eqn:FS;
    [|discriminate].
  cbn [bind] in H.
  destruct (py_items value_) as [items|] eqn:IT; [|discriminate].
  cbn [bind] in H.
  destruct (mapM _ _) as [parsed|] eqn:MP; [|discriminate].
  cbn [bind] in H.
  destruct (SQLUnitSource_mock_schema src) as [schema|] eqn:MS; [|discriminate].
  cbn [bind] in H.
  destruct (backfill src (dict_keys schema) (dict_of_pairs parsed))
    as [given1|] eqn:B; [|discriminate].
  cbn [bind] in H. inversion H; subst.
  destruct value_; try discriminate. inversion IT; subst.
  exists mt, items, e, expected_, parsed, schema, given1.
  repeat split; try assumption.
  cbn in PG. destruct (dict_get "expected" items); [congruence | discriminate].
Qed.

(** The keys of the parsed given entries are no mock names. *)
Lemma parsed_given_keys src items parsed schema k :
  mapM (fun kv => v <- SQLUnitTestCase_parse_given src (fst kv) (snd kv) ;;
                  Ok (fst kv, v))
       (filter (fun kv => match Re.match_ SQLUNIT_GIVEN_PATTERN (fst kv) with
                          | Some _ => true
                          | None => false
                          end) items)
  = Ok parsed ->
  SQLUnitSource_mock_schema src = Ok schema ->
  In k (dict_keys schema) ->
  dict_has k (dict_of_pairs parsed) = false.
Proof.
  intros EP HS Hk.
  destruct (dict_has k (dict_of_pairs parsed)) eqn:EH; [|reflexivity].
  exfalso. apply dict_has_key in EH.
  apply dict_keys_update in EH. destruct EH as [[]|EH].
  rewrite (mapM_keys _ _ _ EP) in EH.
  apply in_map_iff in EH. destruct EH as ([k' v'] & <- & EH).
  apply filter_In in EH. destruct EH as [_ EM]. cbn [fst] in *.
  assert (NI : forallb Re.ident_char k' = false).
  { apply given_key_no_identifier.
    destruct (Re.match_ SQLUNIT_GIVEN_PATTERN k'); congruence. }
  pose proof (schema_names src schema HS) as F.
  rewrite Forall_forall in F. rewrite (F k' Hk) in NI. discriminate.
Qed.

(** The backfilling loop overwrites nothing. *)
Lemma backfill_preserves src keys : forall given0 given1 k v,
  backfill src keys given0 = Ok given1 ->
  dict_get k given0 = Some v -> dict_get k given1 = Some v.
Proof.
  induction keys as [|k0 rest IH]; intros given0 given1 k v H G; simpl in H.
  - inversion H; subst. exact G.
  - destruct (dict_has k0 given0) eqn:E0; cbn [negb] in H.
    + now apply (IH given0).
    + destruct (SQLUnitSource_mock src k0) as [m|]; [|discriminate].
      cbn [bind] in H.
      destruct (YAMLTable_empty_mock_table m) as [t|]; [|discriminate].
      cbn [bind] in H. apply (IH _ _ _ _ H).
      rewrite dict_get_set_other; [exact G|].
      intros ->. unfold dict_has in E0. rewrite G in E0. discriminate.
Qed.

(** The loop gives a missing key the empty table of its mock. *)
Lemma backfill_values src schema keys : forall given0 given1 k m,
  SQLUnitSource_mock_schema src = Ok schema ->
  backfill src keys given0 = Ok given1 ->
  In k keys -> dict_has k given0 = false ->
  dict_get k schema = Some m ->
  exists cols, mock_columns m = Some cols /\ cols <> []
               /\ dict_get k given1
                  = Some (GTable {| rows := []; columns := cols |}).
Proof.
  intros given0 given1 k m HS. revert given0 given1.
  induction keys as [|k0 rest IH]; intros given0 given1 H Hin Hk G;
    [destruct Hin|].
  simpl in H. destruct (str_eqb k0 k) eqn:EK.
  - apply str_eqb_eq in EK. subst k0. rewrite Hk in H. cbn [negb] in H.
    unfold SQLUnitSource_mock in H. rewrite HS in H. cbn [bind] in H.
    rewrite G in H.
    destruct (YAMLTable_empty_mock_table (Some m)) as [t|] eqn:ET;
      [|discriminate].
    cbn [bind] in H. unfold YAMLTable_empty_mock_table in ET.
    apply table_new_inv in ET. destruct ET as (c & EC & -> & [N _]).
    exists c. split; [exact EC|]. split; [exact N|].
    apply (backfill_preserves _ _ _ _ _ _ H). apply dict_get_set_same.
  - apply str_eqb_neq in EK.
    destruct Hin as [E|Hin]; [congruence|].
    destruct (dict_has k0 given0) eqn:E0; cbn [negb] in H.
    + now apply (IH given0).
    + destruct (SQLUnitSource_mock src k0) as [m0|]; [|discriminate].
      cbn [bind] in H.
      destruct (YAMLTable_empty_mock_table m0) as [t|]; [|discriminate].
      cbn [bind] in H. apply (IH _ _ H Hin); [|exact G].
      unfold dict_has in *. rewrite dict_get_set_other by congruence.
      exact Hk.
Qed.

Lemma case_mock_tables (src : SQLUnitSource) (key : str)
      (value_ : value) (case : SQLUnitTestCase)
      (schema : SQLUnitMockSchema) (k : str) (m : SQLUnitMock) :
  SQLUnitTestCase_from_yaml_item src key value_ = Ok case ->
  SQLUnitSource_mock_schema src = Ok schema ->
  dict_get k schema = Some m ->
  exists cols, mock_columns m = Some cols /\ cols <> []
               /\ dict_get k (given case)
                  = Some (GTable {| rows := []; columns := cols |}).
Proof.
  intros H HS G. apply from_yaml_item_parts in H.
  destruct H as (mt & items & e & expected_ & parsed & schema' & given1
                 & _ & _ & _ & _ & _ & MP & HS' & B & ->).
  rewrite HS in HS'. inversion HS'; subst schema'. cbn [given].
  assert (Hk : In k (dict_keys schema)) by now apply dict_get_key with (v := m).
  apply (backfill_values src schema _ _ _ k m HS B Hk); [|exact G].
  now apply (parsed_given_keys src items parsed schema k MP HS Hk).
Qed.

(** X19: in a test case that [from_yaml_item] returns, the name of every
    declared mock maps to the empty table over the columns of the mock,
    whether or not the annotation has a given entry for it: the given
    entries are kept under their own keys, [given], a space and the
    quoted name, and never reach the name of the mock.  So a case is
    returned only for a source all of whose mocks have columns. *)
Theorem given_mock_names_are_empty (src : SQLUnitSource) (key : str)
        (value_ : value) (case : SQLUnitTestCase)
        (schema : SQLUnitMockSchema) (k : str) (m : SQLUnitMock) :
  SQLUnitTestCase_from_yaml_item src key value_ = Ok case ->
  SQLUnitSource_mock_schema src = Ok schema ->
  dict_get k schema = Some m ->
  exists cols, mock_columns m = Some cols /\ cols <> []
               /\ dict_get k (given case)
                  = Some (GTable {| rows := []; columns := cols |}).
Proof. apply case_mock_tables. Qed.

(** X20: a test case that [from_yaml_item] returns belongs to the source
    it was asked for; its name is the identifier of the key, which is
    [sql-unit.test] and the quoted name (with at most a line feed behind);
    and its expected table is the [expected] text of the value, parsed
    without a schema. *)
Theorem case_from_yaml_item_sound (src : SQLUnitSource) (key : str)
        (value_ : value) (case : SQLUnitTestCase) :
  SQLUnitTestCase_from_yaml_item src key value_ = Ok case ->
  source case = src
  /\ (key = "sql-unit.test " ++ QUOTE ++ name case ++ QUOTE
      \/ key = "sql-unit.test " ++ QUOTE ++ name case ++ QUOTE ++ NL)
  /\ name case <> []
  /\ exists items text,
       value_ = VDict items
       /\ dict_get "expected" items = Some (VStr text)
       /\ YAMLTable_from_string text None = Ok (expected case).
Proof.
  intros H. apply from_yaml_item_parts in H.
  destruct H as (mt & items & e & expected_ & parsed & schema & given1
                 & M & T & -> & GE & FS & _ & _ & _ & ->).
  cbn [source name expected].
  destruct (identifier_shape key mt M) as (K & Tl & _ & _ & NI & _ & _).
  rewrite T in K. split; [reflexivity|]. split; [|split; [exact NI|]].
  - destruct Tl as [E|E]; rewrite E in K; [left | right]; rewrite K at 1.
    + now rewrite app_nil_r.
    + reflexivity.
  - exists items. destruct e; try discriminate. exists s. now repeat split.
Qed.

Lemma backfill_entries src keys : forall given0 given1 k v,
  backfill src keys given0 = Ok given1 ->
  In (k, v) given1 ->
  In (k, v) given0
  \/ exists m t, YAMLTable_empty_mock_table m = Ok t /\ v = GTable t.
Proof.
  induction keys as [|k0 rest IH]; intros given0 given1 k v H Hin; simpl in H.
  - inversion H; subst. now left.
  - destruct (dict_has k0 given0); cbn [negb] in H.
    + now apply (IH given0 given1).
    + destruct (SQLUnitSource_mock src k0) as [m|]; [|discriminate].
      cbn [bind] in H.
      destruct (YAMLTable_empty_mock_table m) as [t|] eqn:ET; [|discriminate].
      cbn [bind] in H. destruct (IH _ _ _ _ H Hin) as [H1|H1]; [|now right].
      apply dict_set_entries in H1.
      destruct H1 as [[-> ->]|H1]; [right; now exists m, t | now left].
Qed.

Lemma from_string_table_valid s schema t :
  YAMLTable_from_string s schema = Ok t -> valid_table t.
Proof.
  unfold YAMLTable_from_string. intros H.
  destruct (splitlines (strip s)) as [|line0 rest]; [discriminate|].
  destruct (nth_error (line0 :: rest) 1); [|discriminate].
  destruct (negb _); [discriminate|].
  destruct (load_rows _ _); [|discriminate]. cbn [bind] in H.
  match type of H with
  | bind ?x _ = _ => destruct x; [|discriminate]
  end.
  cbn [bind] in H. apply table_new_inv in H.
  now destruct H as (c & _ & -> & V).
Qed.

Lemma parse_given_valid src items : forall parsed k t,
  mapM (fun kv => v <- SQLUnitTestCase_parse_given src (fst kv) (snd kv) ;;
                  Ok (fst kv, v)) items = Ok parsed ->
  In (k, GTable t) parsed -> valid_table t.
Proof.
  induction items as [|[k0 v0] rest IH]; intros parsed k t H Hin; simpl in H.
  - inversion H; subst. destruct Hin.
  - destruct (SQLUnitTestCase_parse_given src k0 v0) as [g|] eqn:PG;
      [|discriminate].
    cbn [bind] in H. destruct (mapM _ rest) as [ps|] eqn:MP; [|discriminate].
    cbn [bind] in H. inversion H; subst. destruct Hin as [E|Hin].
    + inversion E; subst. unfold SQLUnitTestCase_parse_given in PG.
      destruct (Re.match_ SQLUNIT_GIVEN_PATTERN k); [|discriminate].
      destruct (SQLUnitSource_mock src _) as [[mt|]|]; try discriminate.
      cbn [bind] in PG. destruct (SQLUnitMockType_eqb _ _); [|discriminate].
      destruct v0; try discriminate. cbn in PG.
      destruct (YAMLTable_from_string s (mock_columns mt)) as [t'|] eqn:FS;
        [|discriminate].
      cbn in PG. inversion PG; subst.
      now apply from_string_table_valid with (s := s) (schema := mock_columns mt).
    + now apply (IH ps k t).
Qed.

(** X21: every table of a test case that [from_yaml_item] returns, the
    expected one and those of [given], keeps the table invariant: it has
    columns and each of its rows has exactly these columns. *)
Theorem from_yaml_item_tables_valid (src : SQLUnitSource) (key : str)
        (value_ : value) (case : SQLUnitTestCase) :
  SQLUnitTestCase_from_yaml_item src key value_ = Ok case ->
  valid_table (expected case)
  /\ forall k t, In (k, GTable t) (given case) -> valid_table t.
Proof.
  intros H. apply from_yaml_item_parts in H.
  destruct H as (mt & items & e & expected_ & parsed & schema & given1
                 & _ & _ & _ & _ & FS & MP & _ & B & ->).
  cbn [expected given]. split.
  - destruct e; try discriminate.
    now apply from_string_table_valid with (s := s) (schema := None).
  - intros k t Hin. destruct (backfill_entries _ _ _ _ _ _ B Hin) as [H1|H1].
    + unfold dict_of_pairs in H1. apply dict_update_entries in H1.
      destruct H1 as [[]|H1]. now apply (parse_given_valid _ _ _ _ _ MP H1).
    + destruct H1 as (m0 & t0 & ET & E). inversion E; subst t0.
      unfold YAMLTable_empty_mock_table in ET.
      destruct m0; [|discriminate]. apply table_new_inv in ET.
      now destruct ET as (c & _ & -> & V).
Qed.

Lemma collect_cases_constructed src items : forall cases result_,
  SQLUnitSource_collect_cases src items cases = Ok result_ ->
  result_ = cases ++ constructed src items.
Proof.
  induction items as [|[key value_] rest IH]; intros cases result_ H;
    simpl in H.
  - inversion H. now rewrite app_nil_r.
  - unfold constructed. cbn [flat_map fst snd]. fold (constructed src rest).
    destruct (contains "sql-unit.test" key); cbn [negb] in H.
    + destruct (SQLUnitTestCase_from_yaml_item src key value_) as [c|e].
      * rewrite (IH _ _ H). now rewrite <- app_assoc.
      * destruct e; try discriminate. now apply IH.
    + now apply IH.
Qed.

(** X22: when [test_cases] returns, its list is the cases constructed
    from the entries of the annotation document, in the order of the
    document: one case for each entry whose key contains [sql-unit.test]
    and for which [from_yaml_item] returns, and nothing else. *)
Theorem test_cases_in_order (src : SQLUnitSource)
        (cases : list SQLUnitTestCase) :
  SQLUnitSource_test_cases src = Ok cases ->
  exists entries,
    get_comments_obj (code src) = VDict entries
    /\ cases = constructed src entries.
Proof.
  unfold SQLUnitSource_test_cases. intros H.
  destruct (get_comments_obj (code src)) as [| | | | | |entries|];
    try discriminate.
  cbn [py_items bind] in H. exists entries. split; [reflexivity|].
  now apply (collect_cases_constructed src entries []).
Qed.

Lemma constructed_cases src entries c :
  In c (constructed src entries) ->
  exists key value_, In (key, value_) entries
                     /\ SQLUnitTestCase_from_yaml_item src key value_ = Ok c.
Proof.
  unfold constructed. intros H. apply in_flat_map in H.
  destruct H as ([key value_] & Hin & H). cbn [fst snd] in H.
  destruct (contains "sql-unit.test" key); [|destruct H].
  destruct (SQLUnitTestCase_from_yaml_item src key value_) as [c'|] eqn:E;
    [|destruct H].
  destruct H as [<-|[]]. now exists key, value_.
Qed.

(** X23: a source that declares a mock without columns, as every mock
    that is no table may be, or with an empty column schema, has no test
    case: when [test_cases] returns for it, the list is empty. *)
Theorem test_cases_none_with_scalar_mock (src : SQLUnitSource)
        (schema : SQLUnitMockSchema) (k : str) (m : SQLUnitMock)
        (cases : list SQLUnitTestCase) :
  SQLUnitSource_mock_schema src = Ok schema ->
  dict_get k schema = Some m ->
  mock_columns m = None \/ mock_columns m = Some [] ->
  SQLUnitSource_test_cases src = Ok cases ->
  cases = [].
Proof.
  intros HS G C H. unfold SQLUnitSource_test_cases in H.
  destruct (get_comments_obj (code src)) as [| | | | | |entries|];
    try discriminate.
  cbn [py_items bind] in H.
  apply (collect_cases_constructed src entries []) in H. cbn [app] in H.
  subst cases. destruct (constructed src entries) as [|c rest] eqn:E;
    [reflexivity|].
  exfalso.
  destruct (constructed_cases src entries c) as (key & value_ & _ & F).
  { rewrite E. now left. }
  destruct (case_mock_tables src key value_ c schema k m F HS G)
    as (cols & EC & N & _).
  destruct C as [C|C]; rewrite C in EC; [discriminate|].
  inversion EC. congruence.
Qed.

End CaseFacts.

(* ================================================================== *)
(** * The compiler: further properties *)
(* ================================================================== *)

Lemma render_context_fold mocks : forall given_ k,
  dict_get k
    (fold_left (fun context mock =>
                  if SQLUnitMockType_eqb (mock_typ mock) table
                  then dict_set (mock_name mock)
                                (GRaw (VStr (mock_name mock ++ "_table"))) context
                  else context) mocks given_)
  = if mem k (map mock_name
                  (filter (fun m => SQLUnitMockType_eqb (mock_typ m) table) mocks))
    then Some (GRaw (VStr (k ++ "_table")))
    else dict_get k given_.
Proof.
  induction mocks as [|m mocks IH]; intros given_ k; [reflexivity|].
  cbn [fold_left filter]. rewrite IH.
  destruct (SQLUnitMockType_eqb (mock_typ m) table); [|reflexivity].
  cbn [map mem existsb]. fold (mem k (map mock_name
    (filter (fun m0 => SQLUnitMockType_eqb (mock_typ m0) table) mocks))).
  destruct (mem k _) eqn:E; [now rewrite orb_true_r|]. rewrite orb_false_r.
  destruct (str_eqb k (mock_name m)) eqn:EK.
  - apply str_eqb_eq in EK. subst k. apply dict_get_set_same.
  - apply str_eqb_neq in EK. now apply dict_get_set_other.
Qed.

(** X24: in the render context of [compile], the name of every
    table-typed mock of the schema stands for the name of its CTE, the
    mock name followed by [_table], whatever [given] has under that name;
    every other key has the value [given] has for it. *)
Theorem render_context_lookup (schema : SQLUnitMockSchema)
        (given_ : dict given_value) (k : str) :
  dict_get k (render_context schema given_)
  = if mem k (table_mock_names schema)
    then Some (GRaw (VStr (k ++ "_table")))
    else dict_get k given_.
Proof. unfold render_context, table_mock_names. apply render_context_fold. Qed.


(** X26: when the source has a leading WITH clause and [given] has no
    table, the text [compile] composes is a line feed and the source from
    behind the closing parenthesis the pattern matched: the leading clause
    is dropped and nothing stands in its place. *)
Theorem injected_drops_with_clause (self : SQLUnitTestCase)
        (g : dict str) (rest : str) :
  Re.match_ leading_with_pattern (code (source self)) = Some (g, rest) ->
  given_withs (given self) = Ok [] ->
  injected_source_code self = Ok (NL ++ rest)
  /\ exists matched, code (source self) = matched ++ ")" ++ rest.
Proof.
  intros M G. split; [|now apply leading_with_match_shape with (g := g)].
  unfold injected_source_code, re_sub_empty. now rewrite M, G.
Qed.


Lemma given_withs_tables items : forall withs,
  given_withs items = Ok withs ->
  Forall2 (fun kt w => exists sel,
                         YAMLTable_as_unioned_selects (snd kt) = Ok sel
                         /\ w = fst kt ++ "_table as (" ++ sel ++ ")")
          (tables_of items) withs.
Proof.
  induction items as [|[k [t|v]] rest IH]; intros withs H; simpl in H.
  - inversion H. constructor.
  - destruct (YAMLTable_as_unioned_selects t) as [sel|] eqn:S; [|discriminate].
    cbn [bind] in H. destruct (given_withs rest) as [ws|]; [|discriminate].
    cbn [bind] in H. inversion H; subst.
    unfold tables_of. cbn [flat_map snd fst app]. constructor.
    + exists sel. now split.
    + now apply IH.
  - now apply IH.
Qed.

(** X27: the CTE fragments of [compile] are one per literal table of
    [given], in the order of [given]: the key of the entry, [_table as],
    and the unioned selects of the table in parentheses; an entry that is
    no table gives no fragment. *)
Theorem given_withs_one_per_table (given_ : dict given_value)
        (withs : list str) :
  given_withs given_ = Ok withs ->
  length withs = length (tables_of given_)
  /\ Forall2 (fun kt w => exists sel,
                            YAMLTable_as_unioned_selects (snd kt) = Ok sel
                            /\ w = fst kt ++ "_table as (" ++ sel ++ ")")
             (tables_of given_) withs.
Proof.
  intros H. pose proof (given_withs_tables _ _ H) as F.
  split; [symmetry; exact (Forall2_length F) | exact F].
Qed.


Lemma dropwhile_idem p s : dropwhile p (dropwhile p s) = dropwhile p s.
Proof.
  induction s as [|c r IH]; [reflexivity|]. simpl.
  destruct (p c) eqn:E; [exact IH|]. simpl. now rewrite E.
Qed.

Lemma rstrip_tail c r : rstrip (c :: r) = c :: r -> rstrip r = r.
Proof.
  simpl. destruct (rstrip r) as [|d r'] eqn:E.
  - destruct (isspace c); intros H; inversion H. reflexivity.
  - intros H. inversion H. reflexivity.
Qed.

Lemma rstrip_dropwhile p s :
  rstrip s = s -> rstrip (dropwhile p s) = dropwhile p s.
Proof.
  induction s as [|c r IH]; intros H; [reflexivity|].
  cbn [dropwhile]. destruct (p c); [|exact H].
  apply IH. now apply rstrip_tail with (c := c).
Qed.

Lemma strip_ends s :
  lstrip (strip s) = strip s /\ rstrip (strip s) = strip s.
Proof.
  unfold strip, lstrip. split.
  - apply dropwhile_idem.
  - apply rstrip_dropwhile, rstrip_idem.
Qed.

Section CompileFacts.
Context {yaml : Yaml} {jinja : Jinja}.

(** X29: the text [compile] returns is the rendering of the composed
    text in the render context, stripped: it has no whitespace at its
    start or at its end, and stripping it again changes nothing. *)
Theorem compile_stripped (self : SQLUnitTestCase) (sql : str) :
  SQLUnitTestCase_compile self = Ok sql ->
  (exists injected schema rendered_code,
     injected_source_code self = Ok injected
     /\ SQLUnitSource_mock_schema (source self) = Ok schema
     /\ render injected (render_context schema (given self)) = Ok rendered_code
     /\ sql = strip rendered_code)
  /\ lstrip sql = sql /\ rstrip sql = sql /\ strip sql = sql.
Proof.
  unfold SQLUnitTestCase_compile. intros H.
  destruct (injected_source_code self) as [injected|]; [|discriminate].
  cbn [bind] in H.
  destruct (SQLUnitSource_mock_schema (source self)) as [schema|];
    [|discriminate].
  cbn [bind] in H.
  destruct (render injected (render_context schema (given self)))
    as [rendered_code|] eqn:R; [|discriminate].
  cbn [bind] in H. inversion H; subst sql.
  destruct (strip_ends rendered_code) as [L T].
  split; [now exists injected, schema, rendered_code|].
  split; [exact L|]. split; [exact T|].
  unfold strip at 1. rewrite T. exact L.
Qed.

End CompileFacts.

(* ================================================================== *)
(** * The further properties at concrete inputs *)
(* ================================================================== *)

(** A text without a comment, and a text whose comment is not closed. *)
Lemma get_comments_nothing_to_extract_witness :
  (contains "/*" "select 1" = false -> get_comments "select 1" = [])
  /\ get_comments ("select 1 " ++ "/*" ++ " # sql-unit") = [].
Proof.
  split.
  - exact (proj1 (get_comments_nothing_to_extract "select 1")).
  - apply (proj2 (get_comments_nothing_to_extract
                    ("select 1 " ++ "/*" ++ " # sql-unit"))
                 "select 1 " " # sql-unit"); reflexivity.
Defined.

(** An annotation comment followed by a plain comment. *)
Lemma collected_first_comment_witness :
  collected ("select 1; " ++ "/*" ++ (" # sql-unit" ++ NL ++ "a: 1" ++ NL)
             ++ "*/" ++ " /* note */")
  = contribution (" # sql-unit" ++ NL ++ "a: 1" ++ NL)
    ++ collected " /* note */".
Proof.
  apply (collected_first_comment "select 1; "
           (" # sql-unit" ++ NL ++ "a: 1" ++ NL) " /* note */");
    vm_compute; reflexivity.
Defined.

(** A plain comment before an annotation comment. *)
Lemma get_comments_skips_comment_witness :
  get_comments ("select 1; " ++ "/*" ++ " note " ++ "*/"
                ++ " /* # sql-unit" ++ NL ++ "a: 1 */")
  = get_comments (" /* # sql-unit" ++ NL ++ "a: 1 */").
Proof.
  apply (get_comments_skips_comment "select 1; " " note "
           (" /* # sql-unit" ++ NL ++ "a: 1 */"));
    vm_compute; reflexivity.
Defined.

(** The key of the mock of the repository's sample source. *)
Lemma identifier_pattern_shape_witness :
  let m := ([("type", "mock"); ("identifier", "mysrc")], []) in
  Re.match_ SQLUNIT_IDENTIFIER_PATTERN (Demo.key_of "mock" "mysrc") = Some m
  /\ Demo.key_of "mock" "mysrc"
     = "sql-unit." ++ "mock" ++ " " ++ QUOTE ++ "mysrc" ++ QUOTE ++ []
  /\ forallb Re.ident_char "mysrc" = true.
Proof.
  intros m.
  assert (M : Re.match_ SQLUNIT_IDENTIFIER_PATTERN (Demo.key_of "mock" "mysrc")
              = Some m) by (vm_compute; reflexivity).
  split; [exact M|].
  destruct (identifier_pattern_shape (Demo.key_of "mock" "mysrc") m M)
    as (K & _ & _ & _ & _ & I & _).
  split; [exact K | exact I].
Defined.

Lemma identifier_pattern_accepts_witness :
  Re.match_ SQLUNIT_IDENTIFIER_PATTERN
    ("sql-unit." ++ "mock" ++ " " ++ QUOTE ++ "mysrc" ++ QUOTE)
  = Some ([("type", "mock"); ("identifier", "mysrc")], []).
Proof.
  apply (identifier_pattern_accepts "mock" "mysrc");
    first [discriminate | reflexivity].
Defined.

(** The given key of the repository's sample source. *)
Lemma given_pattern_shape_witness :
  Re.match_ SQLUNIT_GIVEN_PATTERN (Demo.given_key "mysrc")
  = Some ([("name", "mysrc")], [])
  /\ forallb Re.ident_char "mysrc" = true.
Proof.
  assert (M : Re.match_ SQLUNIT_GIVEN_PATTERN (Demo.given_key "mysrc")
              = Some ([("name", "mysrc")], [])).
  { apply (proj2 (given_pattern_shape (Demo.given_key "mysrc")) "mysrc");
      first [discriminate | reflexivity]. }
  split; [exact M|].
  exact (proj2 (proj2 (proj2
    (proj1 (given_pattern_shape (Demo.given_key "mysrc")) _ M)))).
Defined.


(** The mock of the repository's sample source, and a table mock without
    columns. *)
Lemma mock_from_yaml_item_sound_witness :
  SQLUnitMock_from_yaml_item (Demo.key_of "mock" "mysrc")
    (VDict [ ("type", VStr "table");
             ("columns", VDict [("id", VStr "int"); ("name", VStr "string")]) ])
  = Ok Sample.mysrc
  /\ forallb Re.ident_char (mock_name Sample.mysrc) = true
  /\ SQLUnitMock_from_yaml_item (Demo.key_of "mock" "mysrc")
       (VDict [ ("type", VStr "table") ])
     = Raise ValueError.
Proof.
  assert (M : SQLUnitMock_from_yaml_item (Demo.key_of "mock" "mysrc")
                (VDict [ ("type", VStr "table");
                         ("columns", VDict [("id", VStr "int");
                                            ("name", VStr "string")]) ])
              = Ok Sample.mysrc) by (vm_compute; reflexivity).
  split; [exact M|]. split.
  - exact (proj1 (proj2 (proj2
      (proj1 (mock_from_yaml_item_sound _ _) _ M)))).
  - apply (proj2 (mock_from_yaml_item_sound (Demo.key_of "mock" "mysrc")
                    (VDict [ ("type", VStr "table") ]))
                 ([("type", "mock"); ("identifier", "mysrc")], [])
                 [ ("type", VStr "table") ]);
      first [reflexivity | (vm_compute; reflexivity) | (left; reflexivity)].
Defined.

(** The schema of the repository's sample source. *)
Lemma mock_schema_keyed_by_name_witness :
  @SQLUnitMockSchema_from_template Demo.yaml Demo.table_code
  = Ok [("mysrc", Sample.mysrc)]
  /\ NoDup (dict_keys [("mysrc", Sample.mysrc)])
  /\ mock_name Sample.mysrc = "mysrc".
Proof.
  assert (S : @SQLUnitMockSchema_from_template Demo.yaml Demo.table_code
              = Ok [("mysrc", Sample.mysrc)]) by (vm_compute; reflexivity).
  split; [exact S|].
  destruct (@mock_schema_keyed_by_name Demo.yaml Demo.table_code _ S) as [N P].
  split; [exact N|].
  exact (proj1 (P "mysrc" Sample.mysrc eq_refl)).
Defined.


(** The source with the kind [mockup]. *)
Lemma mock_schema_assertion_escapes_witness :
  @get_comments_obj Sample.yaml (code Sample.mockup_source) = Sample.mockup_doc
  /\ @SQLUnitSource_mock_schema Sample.yaml Sample.mockup_source
     = Raise AssertionError
  /\ forall name_,
       @SQLUnitSource_mock Sample.yaml Sample.mockup_source name_
       = Raise AssertionError.
Proof.
  split; [vm_compute; reflexivity|].
  apply (@mock_schema_assertion_escapes Sample.yaml Sample.mockup_source
           [(Demo.key_of "test" "t1", Demo.scalar_test)] []
           (Demo.key_of "mockup" "m") Sample.mockup_value
           ([("type", "mockup"); ("identifier", "m")], [])).
  - vm_compute; reflexivity.
  - constructor; [|constructor]. left. vm_compute; reflexivity.
  - vm_compute; reflexivity.
  - discriminate.
  - vm_compute; reflexivity.
Defined.


(** The given table of the repository's sample source. *)
Lemma from_string_valid_witness :
  let t := {| rows := [ [("id", VInt 1); ("name", VStr "foo")];
                        [("id", VInt 2); ("name", VStr "bar")] ];
              columns := Demo.mysrc_columns |} in
  @YAMLTable_from_string Sample.yaml Sample.two_rows (Some Demo.mysrc_columns)
  = Ok t
  /\ valid_table t
  /\ YAMLTable_validate_columns t = Ok t
  /\ length (rows t)
     = length (filter nonblank (skipn 2 (splitlines (strip Sample.two_rows)))).
Proof.
  intros t.
  assert (F : @YAMLTable_from_string Sample.yaml Sample.two_rows
                (Some Demo.mysrc_columns) = Ok t) by (vm_compute; reflexivity).
  split; [exact F|].
  exact (@from_string_valid Sample.yaml Sample.two_rows
           (Some Demo.mysrc_columns) t F).
Defined.

(** A text of spaces, and a table whose second line is a data row. *)
Lemma from_string_rejects_witness :
  @YAMLTable_from_string Sample.yaml "   " None = Raise ValueError
  /\ @YAMLTable_from_string Sample.yaml
       (join NL ["| id |"; "| 1  |"]) None = Raise ValueError.
Proof.
  split.
  - apply (proj1 (@from_string_rejects Sample.yaml "   " None)). reflexivity.
  - apply (proj2 (@from_string_rejects Sample.yaml
                    (join NL ["| id |"; "| 1  |"]) None)
                 "| id |" "| 1  |" []); vm_compute; reflexivity.
Defined.

(** The given table of the repository's sample source, with the schema
    of the mock and without a schema. *)
Lemma from_string_column_types_witness :
  (forall t, @YAMLTable_from_string Sample.yaml Sample.two_rows
               (Some Demo.mysrc_columns) = Ok t ->
             columns t = Demo.mysrc_columns)
  /\ (forall t, @YAMLTable_from_string Sample.yaml Sample.two_rows None = Ok t ->
                match rows t with
                | [] => columns t
                        = dict_of_pairs (map (fun col => (col, "string"))
                                             (cells (strip "| id | name |")))
                | row0 :: _ =>
                  mapM (fun kv => ty <- native_to_sql_typedef (type_of (snd kv)) ;;
                                  Ok (fst kv, ty)) row0
                  = Ok (columns t)
                end).
Proof.
  split; intros t H.
  - apply (@from_string_column_types Sample.yaml Sample.two_rows
             "| id | name |" ["|----|------|"; "| 1  | foo  |"; "| 2  | bar  |"]
             (Some Demo.mysrc_columns) t); [vm_compute; reflexivity | | exact H].
    repeat constructor.
  - apply (@from_string_column_types Sample.yaml Sample.two_rows
             "| id | name |" ["|----|------|"; "| 1  | foo  |"; "| 2  | bar  |"]
             None t); [vm_compute; reflexivity | | exact H].
    repeat constructor.
Defined.

(** The empty table of the mock of the repository's sample source. *)
Lemma empty_mock_table_encodes_witness :
  let t := {| rows := []; columns := Demo.mysrc_columns |} in
  YAMLTable_empty_mock_table (Some Sample.mysrc) = Ok t
  /\ YAMLTable_as_unioned_selects t
     = Ok ("select cast(null as int) as id, cast(null as string) as name"
           ++ NL ++ "where false").
Proof.
  intros t.
  assert (E : YAMLTable_empty_mock_table (Some Sample.mysrc) = Ok t).
  { apply (proj1 (empty_mock_table_encodes Sample.mysrc) t).
    exists Demo.mysrc_columns. repeat split. discriminate. }
  split; [exact E|].
  exact (proj1 (proj2 (empty_mock_table_encodes Sample.mysrc)) t E).
Defined.


(** The second test of the repository's sample source, which has a given
    table for [mysrc]. *)
Lemma given_mock_names_are_empty_witness :
  exists case,
    @SQLUnitTestCase_from_yaml_item Demo.yaml Demo.table_source
      (Demo.key_of "test" "test_case_2") Demo.table_test_2 = Ok case
    /\ dict_has (Demo.given_key "mysrc") (given case) = true
    /\ exists cols,
         mock_columns Sample.mysrc = Some cols /\ cols <> []
         /\ dict_get "mysrc" (given case)
            = Some (GTable {| rows := []; columns := cols |}).
Proof.
  eexists. split; [vm_compute; reflexivity|]. split; [reflexivity|].
  apply (@given_mock_names_are_empty Demo.yaml Demo.table_source
           (Demo.key_of "test" "test_case_2") Demo.table_test_2 _
           [("mysrc", Sample.mysrc)] "mysrc" Sample.mysrc);
    vm_compute; reflexivity.
Defined.

(** The first test of the repository's sample source. *)
Lemma case_from_yaml_item_sound_witness :
  @SQLUnitTestCase_from_yaml_item Demo.yaml Demo.table_source
    (Demo.key_of "test" "test_case_1") Demo.table_test_1
  = Ok Demo.table_case_1
  /\ source Demo.table_case_1 = Demo.table_source
  /\ name Demo.table_case_1 <> [].
Proof.
  assert (H : @SQLUnitTestCase_from_yaml_item Demo.yaml Demo.table_source
                (Demo.key_of "test" "test_case_1") Demo.table_test_1
              = Ok Demo.table_case_1) by (vm_compute; reflexivity).
  split; [exact H|].
  destruct (@case_from_yaml_item_sound Demo.yaml Demo.table_source _ _ _ H)
    as (S & _ & N & _).
  split; [exact S | exact N].
Defined.

Lemma from_yaml_item_tables_valid_witness :
  @SQLUnitTestCase_from_yaml_item Demo.yaml Demo.table_source
    (Demo.key_of "test" "test_case_1") Demo.table_test_1
  = Ok Demo.table_case_1
  /\ valid_table (expected Demo.table_case_1)
  /\ valid_table {| rows := []; columns := Demo.mysrc_columns |}.
Proof.
  assert (H : @SQLUnitTestCase_from_yaml_item Demo.yaml Demo.table_source
                (Demo.key_of "test" "test_case_1") Demo.table_test_1
              = Ok Demo.table_case_1) by (vm_compute; reflexivity).
  split; [exact H|].
  destruct (@from_yaml_item_tables_valid Demo.yaml Demo.table_source _ _ _ H)
    as [E G].
  split; [exact E|]. apply (G "mysrc"). left. reflexivity.
Defined.

(** The repository's sample source: two cases, in the order of the
    document. *)
Lemma test_cases_in_order_witness :
  exists cases,
    @SQLUnitSource_test_cases Demo.yaml Demo.table_source = Ok cases
    /\ length cases = 2
    /\ exists entries,
         @get_comments_obj Demo.yaml (code Demo.table_source) = VDict entries
         /\ cases = @constructed Demo.yaml Demo.table_source entries.
Proof.
  eexists. split; [vm_compute; reflexivity|]. split; [reflexivity|].
  apply (@test_cases_in_order Demo.yaml Demo.table_source).
  vm_compute; reflexivity.
Defined.


(** A source with a leading WITH clause and a case without tables. *)
Lemma injected_drops_with_clause_witness :
  injected_source_code Sample.bare_with_case
  = Ok (NL ++ " select id from a")
  /\ exists matched,
       code (source Sample.bare_with_case)
       = matched ++ ")" ++ " select id from a".
Proof.
  apply (injected_drops_with_clause Sample.bare_with_case [("1", "with")]
           " select id from a"); vm_compute; reflexivity.
Defined.

(** A table and a scalar value. *)
Lemma given_withs_one_per_table_witness :
  let given_ := [ ("delta", GRaw (VInt 1));
                  ("mysrc", GTable {| rows := [];
                                      columns := Demo.mysrc_columns |}) ] in
  let withs := ["mysrc_table as (select cast(null as int) as id, "
                ++ "cast(null as string) as name" ++ NL ++ "where false)"] in
  given_withs given_ = Ok withs
  /\ length withs = length (tables_of given_).
Proof.
  intros given_ withs.
  assert (G : given_withs given_ = Ok withs) by (vm_compute; reflexivity).
  split; [exact G|].
  exact (proj1 (given_withs_one_per_table given_ withs G)).
Defined.


(** The source with one scalar mock and one test. *)
Lemma test_cases_none_with_scalar_mock_witness :
  let delta := {| mock_name := "delta"; mock_typ := int_;
                  mock_default := None; mock_columns := None |} in
  @SQLUnitSource_mock_schema Demo.yaml Demo.scalar_source
  = Ok [("delta", delta)]
  /\ @SQLUnitSource_test_cases Demo.yaml Demo.scalar_source = Ok [].
Proof.
  intros delta.
  assert (S : @SQLUnitSource_mock_schema Demo.yaml Demo.scalar_source
              = Ok [("delta", delta)]) by (vm_compute; reflexivity).
  split; [exact S|].
  assert (T : exists cases,
             @SQLUnitSource_test_cases Demo.yaml Demo.scalar_source = Ok cases).
  { eexists. vm_compute; reflexivity. }
  destruct T as [cases T]. rewrite T. f_equal.
  apply (@test_cases_none_with_scalar_mock Demo.yaml Demo.scalar_source
           [("delta", delta)] "delta" delta cases S eq_refl);
    [left; reflexivity | exact T].
Defined.

(** The first test of the repository's sample source, compiled. *)
Lemma compile_stripped_witness :
  exists sql,
    @SQLUnitTestCase_compile Demo.yaml Demo.substitute Demo.table_case_1
    = Ok sql
    /\ contains "select * from mysrc_table where id = 1" sql = true
    /\ lstrip sql = sql /\ rstrip sql = sql /\ strip sql = sql.
Proof.
  eexists. split; [vm_compute; reflexivity|].
  split; [vm_compute; reflexivity|].
  apply (@compile_stripped Demo.yaml Demo.substitute Demo.table_case_1).
  vm_compute; reflexivity.
Defined.

(** The annotation text of a comment of two lines. *)
Lemma get_comments_lines_witness :
  exists lines,
    get_comments ("/* # sql-unit" ++ NL ++ "  a: 1" ++ NL ++ "  b: 2 */")
    = join NL lines
    /\ splitlines
         (get_comments ("/* # sql-unit" ++ NL ++ "  a: 1" ++ NL ++ "  b: 2 */"))
       = lines
    /\ Forall settled lines
    /\ (lines <> [] -> Exists (fun l => count_lead l = 0) lines).
Proof.
  exact (get_comments_lines
           ("/* # sql-unit" ++ NL ++ "  a: 1" ++ NL ++ "  b: 2 */")).
Defined.
